(** * Google Places Insights tool: adaptive query executor and density classifier

    A shallow embedding of [src/mastra/tools/google-places-insights-tool.ts]:
    the preset merge, the retry loop of [execute], the assembly of the result
    and [generateBusinessIntelligence], followed by the properties of the
    specification that were checked against them. The refinements of the
    input schema, the prompt of the summarizer tool
    ([src/mastra/tools/summarizer-tool.ts]) and the choice of the response
    type ([src/places/places.service.ts]) are embedded after them, with
    further properties of all of these at the end.

    Conventions of the embedding.
    - An optional key of a JavaScript object is an [option]; [None] is an
      absent key ([undefined]).
    - A JavaScript number that the schema bounds (radius, coordinates, ratings)
      is a rational [Q]: every finite double is one, and the only arithmetic
      done on the radius, [Math.floor(r * 0.25)], is exact on doubles.
    - The density is computed with [Math.PI] and a division; it is modelled in
      exact real arithmetic ([R]), with [NaN] and the infinities kept apart,
      and the rounding of the doubles is left out.
    - A template literal is a list of pieces: its literal text and the numbers
      spliced into it, left unrendered.
    - The network is a function from the index of the request and its body to
      what [fetch] does; the requests sent are recorded in order.
    - A string is the sequence of the bytes of its UTF-8 encoding. *)

From Stdlib Require Import Bool Arith List String Ascii ZArith QArith Qround.
From Stdlib Require Import Reals Qreals Lra Lia DecimalString DecimalNat Machin.
From Stdlib Require Lqa DecimalPos.
Import ListNotations.

Local Open Scope string_scope.
Local Open Scope list_scope.

(** ** JavaScript values used by the tool *)

(** [String.prototype.includes]. *)
Fixpoint includes (needle hay : string) : bool :=
  String.prefix needle hay
  || match hay with
     | EmptyString => false
     | String _ rest => includes needle rest
     end.

(** [Array.prototype.includes] on an array of strings. *)
Definition arrayIncludes (l : list string) (s : string) : bool :=
  existsb (String.eqb s) l.

(** What [parseInt] returns: an integer-valued JavaScript number, an
    infinity or [NaN]. Negative zero is [Fin 0]: the tool divides it,
    compares it and splices it in a template, where the two zeros do the
    same. *)
Inductive JsInt :=
| NaN
| Inf (negative : bool)
| Fin (z : Z).

(** A JavaScript number that need not be an integer: the density. *)
Inductive JsReal :=
| RNaN
| RInf (negative : bool)
| RFin (r : R).

(** [d < x] for a finite bound [x]: false on [NaN]. *)
Definition js_lt (d : JsReal) (x : R) : bool :=
  match d with
  | RNaN => false
  | RInf negative => negative
  | RFin r => if Rlt_dec r x then true else false
  end.

(** [n > k] and [n < k] on integers: false on [NaN]. *)
Definition js_int_gt (n : JsInt) (k : Z) : bool :=
  match n with
  | NaN => false
  | Inf negative => negb negative
  | Fin z => (k <? z)%Z
  end.

Definition js_int_lt (n : JsInt) (k : Z) : bool :=
  match n with
  | NaN => false
  | Inf negative => negative
  | Fin z => (z <? k)%Z
  end.

(** The Number value of an integer: itself under [2 ^ 53], and above it the
    nearest number with a significand of 53 bits, a tie going to the even
    significand; an infinity from [2 ^ 1024 - 2 ^ 970] on. *)
Definition toNumber (z : Z) : JsInt :=
  let a := Z.abs z in
  if (a <? 2 ^ 53)%Z then Fin z
  else
    let e := (Z.log2 a - 52)%Z in
    let q := Z.shiftr a e in
    let r := (a - Z.shiftl q e)%Z in
    let half := Z.shiftl 1 (e - 1) in
    let q' :=
      if (half <? r)%Z || ((r =? half)%Z && Z.odd q) then (q + 1)%Z else q in
    let m := Z.shiftl q' e in
    if (2 ^ 1024 <=? m)%Z then Inf (z <? 0)%Z
    else Fin (if (z <? 0)%Z then Z.opp m else m).

(** Decimal rendering of a status code inside a template literal. *)
Definition showNat (n : nat) : string :=
  NilZero.string_of_uint (Nat.to_uint n).

(** *** [parseInt] with no radix argument *)

(** The white space and the line terminators that [parseInt] skips, a string
    being the bytes of its UTF-8 encoding: the six of ASCII, then U+00A0 on
    two bytes, and on three bytes U+1680, U+2000 to U+200A, U+2028, U+2029,
    U+202F, U+205F, U+3000 and U+FEFF. *)
Definition isWhiteSpace (c : ascii) : bool :=
  let n := nat_of_ascii c in
  ((n =? 32) || (n =? 9) || (n =? 10) || (n =? 11) || (n =? 12) || (n =? 13))%nat.

Definition isWhiteSpace2 (c1 c2 : ascii) : bool :=
  ((nat_of_ascii c1 =? 194) && (nat_of_ascii c2 =? 160))%nat.

Definition isWhiteSpace3 (c1 c2 c3 : ascii) : bool :=
  let a := nat_of_ascii c1 in
  let b := nat_of_ascii c2 in
  let c := nat_of_ascii c3 in
  (((a =? 225) && (b =? 154) && (c =? 128))
   || ((a =? 226) && (b =? 128)
       && (((128 <=? c) && (c <=? 138)) || (c =? 168) || (c =? 169) || (c =? 175)))
   || ((a =? 226) && (b =? 129) && (c =? 159))
   || ((a =? 227) && (b =? 128) && (c =? 128))
   || ((a =? 239) && (b =? 187) && (c =? 191)))%nat.

Fixpoint trimStart (s : string) : string :=
  match s with
  | String c1 rest1 =>
      if isWhiteSpace c1 then trimStart rest1
      else
        match rest1 with
        | String c2 rest2 =>
            if isWhiteSpace2 c1 c2 then trimStart rest2
            else
              match rest2 with
              | String c3 rest3 =>
                  if isWhiteSpace3 c1 c2 c3 then trimStart rest3 else s
              | EmptyString => s
              end
        | EmptyString => s
        end
  | EmptyString => s
  end.

Definition digitValue (radix : Z) (c : ascii) : option Z :=
  let n := Z.of_nat (nat_of_ascii c) in
  let v :=
    if ((48 <=? n) && (n <=? 57))%Z then Some (n - 48)%Z
    else if ((97 <=? n) && (n <=? 122))%Z then Some (n - 87)%Z
    else if ((65 <=? n) && (n <=? 90))%Z then Some (n - 55)%Z
    else None in
  match v with
  | Some d => if (d <? radix)%Z then Some d else None
  | None => None
  end.

(** The longest prefix of digits of the radix, read as a number; [acc] is
    [None] until a digit has been read. *)
Fixpoint parseDigits (radix : Z) (s : string) (acc : option Z) : option Z :=
  match s with
  | EmptyString => acc
  | String c rest =>
      match digitValue radix c with
      | Some d =>
          parseDigits radix rest
            (Some (match acc with Some a => a * radix + d | None => d end)%Z)
      | None => acc
      end
  end.

(** The string is trimmed, a sign is read, then the prefix of a hexadecimal
    number, then the digits; the integer they spell is rounded to a Number. *)
Definition parseInt (s : string) : JsInt :=
  let s1 := trimStart s in
  let '(negative, s2) :=
    match s1 with
    | String "-"%char rest => (true, rest)
    | String "+"%char rest => (false, rest)
    | _ => (false, s1)
    end in
  let '(radix, s3) :=
    match s2 with
    | String "0"%char (String "x"%char rest) => (16%Z, rest)
    | String "0"%char (String "X"%char rest) => (16%Z, rest)
    | _ => (10%Z, s2)
    end in
  match parseDigits radix s3 None with
  | None => NaN
  | Some v => toNumber (if negative then Z.opp v else v)
  end.

(** *** Template literals *)

Inductive Piece :=
| Lit (s : string)
| IntHole (n : JsInt)
| NumHole (q : Q)
| Fixed2Hole (d : JsReal).

Definition Text := list Piece.

Definition str (s : string) : Text := [Lit s].

(** ** The input schema *)

Inductive Insight := INSIGHT_COUNT | INSIGHT_PLACES.

Inductive OperatingStatus :=
| OPERATING_STATUS_UNSPECIFIED
| OPERATING_STATUS_OPERATIONAL
| OPERATING_STATUS_TEMPORARILY_CLOSED
| OPERATING_STATUS_PERMANENTLY_CLOSED.

Inductive PriceLevel :=
| PRICE_LEVEL_UNSPECIFIED
| PRICE_LEVEL_FREE
| PRICE_LEVEL_INEXPENSIVE
| PRICE_LEVEL_MODERATE
| PRICE_LEVEL_EXPENSIVE
| PRICE_LEVEL_VERY_EXPENSIVE.

Inductive AnalysisType :=
| MARKET_DENSITY
| COMPETITOR_ANALYSIS
| LOCATION_SUITABILITY
| PRICE_ANALYSIS
| CUSTOM.

Module Industry.
Inductive t :=
| RETAIL_GENERAL
| FOOD_SERVICE
| PROFESSIONAL_SERVICES
| HEALTH_WELLNESS
| HOSPITALITY
| FINANCIAL_SERVICES
| EDUCATION
| AUTOMOTIVE
| HOME_SERVICES
| SOLO_PROFESSIONAL
| TECH_SERVICES
| CUSTOM.
End Industry.

Inductive BusinessModel :=
| B2B | B2C | FRANCHISE | SOLO_PRACTICE | CORPORATE | STARTUP | FREELANCE.

Inductive StrategicGoal :=
| MARKET_ENTRY
| EXPANSION
| COMPETITION_ANALYSIS
| LOCATION_SELECTION
| PRICE_OPTIMIZATION
| CUSTOMER_ACQUISITION
| MARKET_SHARE_GROWTH.

Module BudgetRange.
Inductive t := LOW | MEDIUM | HIGH | PREMIUM | ULTRA_PREMIUM.
End BudgetRange.

Record LatLng := {
  latitude : Q;
  longitude : Q
}.

Record Circle := {
  latLng : option LatLng;
  circlePlace : option string;
  radius : Q
}.

Record Region := { regionPlace : string }.

Record CustomArea := { polygonCoordinates : list LatLng }.

Record LocationFilter := {
  circle : option Circle;
  region : option Region;
  customArea : option CustomArea
}.

Record TypeFilter := {
  includedTypes : option (list string);
  excludedTypes : option (list string);
  includedPrimaryTypes : option (list string);
  excludedPrimaryTypes : option (list string)
}.

Record RatingFilter := {
  minRating : option Q;
  maxRating : option Q
}.

(** [context.filter]. The schema makes [locationFilter] and [typeFilter]
    required and gives [operatingStatus] a default, so the three are total
    here; the [|| {}] of the merge is then never taken. *)
Record Filter := {
  locationFilter : LocationFilter;
  typeFilter : TypeFilter;
  operatingStatus : list OperatingStatus;
  priceLevels : option (list PriceLevel);
  ratingFilter : option RatingFilter
}.

Record BusinessContext := {
  industry : option Industry.t;
  targetCustomers : option string;
  businessModel : option BusinessModel;
  strategicGoals : option (list StrategicGoal);
  budgetRange : option BudgetRange.t
}.

Record Context := {
  insights : list Insight;
  filter : Filter;
  analysisType : option AnalysisType;
  businessContext : option BusinessContext
}.

(** The refinements and bounds of the schema that the properties refer to. *)
Definition nonEmptyList (l : option (list string)) : bool :=
  match l with
  | Some (_ :: _) => true
  | _ => false
  end.

Definition typeFilterRefine (tf : TypeFilter) : bool :=
  nonEmptyList (includedTypes tf) || nonEmptyList (includedPrimaryTypes tf).

Definition radiusInSchema (r : Q) : Prop := (1 <= r /\ r <= 50000)%Q.

(** ** Industry presets *)

Definition preset (inclPrimary incl excl : option (list string)) : TypeFilter :=
  {| includedTypes := incl;
     excludedTypes := excl;
     includedPrimaryTypes := inclPrimary;
     excludedPrimaryTypes := None |}.

(** The table [BUSINESS_INTELLIGENCE_PRESETS], as a lookup by key; the key
    [CUSTOM] is not in it. A key that a preset does not define is [None]. *)
Definition BUSINESS_INTELLIGENCE_PRESETS (i : Industry.t) : option TypeFilter :=
  match i with
  | Industry.RETAIL_GENERAL =>
      Some (preset None
        (Some ["store"; "shopping_mall"; "supermarket"; "department_store";
               "convenience_store"])
        (Some ["gas_station"; "car_dealer"]))
  | Industry.FOOD_SERVICE =>
      Some (preset (Some ["restaurant"])
        (Some ["cafe"; "fast_food_restaurant"; "meal_takeaway"; "bar"])
        (Some ["lodging"; "gas_station"]))
  | Industry.PROFESSIONAL_SERVICES =>
      Some (preset (Some ["lawyer"; "accounting"; "dentist"; "doctor"])
        (Some ["consultant"; "real_estate_agency"; "insurance_agency"])
        None)
  | Industry.HEALTH_WELLNESS =>
      Some (preset
        (Some ["gym"; "spa"; "beauty_salon"; "physiotherapist"; "hospital";
               "pharmacy"])
        None
        (Some ["lodging"; "gas_station"; "car_dealer"]))
  | Industry.HOSPITALITY =>
      Some (preset (Some ["hotel"; "lodging"])
        (Some ["bar"; "night_club"; "restaurant"])
        (Some ["gas_station"; "car_dealer"]))
  | Industry.FINANCIAL_SERVICES =>
      Some (preset (Some ["bank"])
        (Some ["atm"; "insurance_agency"; "accounting"])
        (Some ["gas_station"; "restaurant"; "lodging"]))
  | Industry.EDUCATION =>
      Some (preset (Some ["school"; "university"])
        (Some ["library"; "book_store"])
        (Some ["gas_station"; "restaurant"; "lodging"]))
  | Industry.AUTOMOTIVE =>
      Some (preset
        (Some ["car_dealer"; "car_rental"; "car_repair"; "gas_station"])
        None
        (Some ["restaurant"; "lodging"]))
  | Industry.HOME_SERVICES =>
      Some (preset (Some ["plumber"; "electrician"; "contractor"])
        (Some ["home_goods_store"; "hardware_store"])
        (Some ["restaurant"; "lodging"; "gas_station"]))
  | Industry.SOLO_PROFESSIONAL =>
      Some (preset None
        (Some ["consultant"; "lawyer"; "dentist"; "doctor"; "therapist";
               "coach"])
        (Some ["restaurant"; "lodging"; "gas_station"; "car_dealer"]))
  | Industry.TECH_SERVICES =>
      Some (preset (Some ["software_company"])
        (Some ["computer_store"; "electronics_store"; "internet_cafe"])
        (Some ["restaurant"; "lodging"; "gas_station"]))
  | Industry.CUSTOM => None
  end.

(** One key of an object spread [{ ...a, ...b }]: the later object wins
    wherever it has the key. *)
Definition spreadKey {A : Type} (a b : option A) : option A :=
  match b with
  | Some v => Some v
  | None => a
  end.

(** [{ ...existingTypeFilter, ...preset }]. *)
Definition spreadTypeFilter (existingTypeFilter p : TypeFilter) : TypeFilter :=
  {| includedTypes := spreadKey (includedTypes existingTypeFilter) (includedTypes p);
     excludedTypes := spreadKey (excludedTypes existingTypeFilter) (excludedTypes p);
     includedPrimaryTypes :=
       spreadKey (includedPrimaryTypes existingTypeFilter) (includedPrimaryTypes p);
     excludedPrimaryTypes :=
       spreadKey (excludedPrimaryTypes existingTypeFilter) (excludedPrimaryTypes p) |}.

Definition withTypeFilter (f : Filter) (tf : TypeFilter) : Filter :=
  {| locationFilter := locationFilter f;
     typeFilter := tf;
     operatingStatus := operatingStatus f;
     priceLevels := priceLevels f;
     ratingFilter := ratingFilter f |}.

Definition industryIsCustom (i : Industry.t) : bool :=
  match i with
  | Industry.CUSTOM => true
  | _ => false
  end.

(** The first block of [execute]: the filter with the preset of the industry
    applied. *)
Definition enhancedFilter (context : Context) : Filter :=
  match businessContext context with
  | Some bc =>
      match industry bc with
      | Some i =>
          if industryIsCustom i then filter context
          else
            match BUSINESS_INTELLIGENCE_PRESETS i with
            | Some p =>
                withTypeFilter (filter context)
                  (spreadTypeFilter (typeFilter (filter context)) p)
            | None => filter context
            end
      | None => filter context
      end
  | None => filter context
  end.

(** ** Classification: [generateBusinessIntelligence] *)

Inductive CompetitionLevel := LOW | MODERATE | HIGH | SATURATED.

(** [count / (Math.PI * Math.pow(radius / 1000, 2))], as the quotient of real
    numbers: the value that the code approximates in doubles, each of its
    operations rounding. Division by zero gives an infinity, or [NaN] for
    [0 / 0]. The double of the code and this quotient can lie on different
    sides of 1, 5 or 15 when the quotient is within that rounding of one of
    them, and a radius whose square underflows divides by zero in the code
    alone. *)
Definition density (count : JsInt) (radius : Q) : JsReal :=
  match count with
  | NaN => RNaN
  | Inf negative => RInf negative
  | Fin c =>
      if Qeq_bool radius 0 then
        if (c =? 0)%Z then RNaN else RInf (c <? 0)%Z
      else RFin (IZR c / (PI * (Q2R radius / 1000) ^ 2))%R
  end.

(** The four arrays the function fills by [push]. *)
Record Notes := {
  notedRecommendations : list Text;
  notedRiskFactors : list Text;
  notedOpportunities : list Text;
  notedStrategicInsights : list Text
}.

Definition noNotes : Notes :=
  {| notedRecommendations := [];
     notedRiskFactors := [];
     notedOpportunities := [];
     notedStrategicInsights := [] |}.

Definition pushRecommendation (t : Text) (n : Notes) : Notes :=
  {| notedRecommendations := notedRecommendations n ++ [t];
     notedRiskFactors := notedRiskFactors n;
     notedOpportunities := notedOpportunities n;
     notedStrategicInsights := notedStrategicInsights n |}.

Definition pushRiskFactor (t : Text) (n : Notes) : Notes :=
  {| notedRecommendations := notedRecommendations n;
     notedRiskFactors := notedRiskFactors n ++ [t];
     notedOpportunities := notedOpportunities n;
     notedStrategicInsights := notedStrategicInsights n |}.

Definition pushOpportunity (t : Text) (n : Notes) : Notes :=
  {| notedRecommendations := notedRecommendations n;
     notedRiskFactors := notedRiskFactors n;
     notedOpportunities := notedOpportunities n ++ [t];
     notedStrategicInsights := notedStrategicInsights n |}.

Definition pushStrategicInsight (t : Text) (n : Notes) : Notes :=
  {| notedRecommendations := notedRecommendations n;
     notedRiskFactors := notedRiskFactors n;
     notedOpportunities := notedOpportunities n;
     notedStrategicInsights := notedStrategicInsights n ++ [t] |}.

(** "Determine competition level based on density": the chain of comparisons
    with the pushes of each branch. *)
Definition densityStage (d : JsReal) : CompetitionLevel * Notes :=
  if js_lt d 1 then
    (LOW,
     pushOpportunity (str "First-mover advantage in underserved market")
       (pushRecommendation (str "Consider being a market pioneer in this area")
          (pushRecommendation (str "Market opportunity exists with low competition")
             noNotes)))
  else if js_lt d 5 then
    (MODERATE,
     pushStrategicInsight
       (str "Market has healthy competition - focus on service quality")
       (pushRecommendation (str "Focus on unique value proposition")
          (pushRecommendation (str "Balanced market with room for differentiation")
             noNotes)))
  else if js_lt d 15 then
    (HIGH,
     pushStrategicInsight
       (str "Consider niche positioning or superior customer experience")
       (pushRiskFactor (str "High competition may impact market share")
          (pushRecommendation
             (str "Highly competitive market - strong differentiation required")
             noNotes)))
  else
    (SATURATED,
     pushOpportunity (str "Consider consolidation or acquisition opportunities")
       (pushRiskFactor (str "High customer acquisition costs likely")
          (pushRiskFactor (str "Market saturation may limit growth potential")
             (pushRecommendation
                (str "Market appears saturated - consider alternative locations")
                noNotes)))).

Definition levelIs (a b : CompetitionLevel) : bool :=
  match a, b with
  | LOW, LOW | MODERATE, MODERATE | HIGH, HIGH | SATURATED, SATURATED => true
  | _, _ => false
  end.

(** "Industry-specific insights". *)
Definition industryStage (businessContext : option BusinessContext)
    (level : CompetitionLevel) (n : Notes) : Notes :=
  match businessContext with
  | Some bc =>
      match industry bc with
      | Some (Industry.RETAIL_GENERAL | Industry.FOOD_SERVICE) =>
          let n :=
            pushStrategicInsight
              (str "Consider seasonal demand patterns for inventory planning") n in
          if levelIs level HIGH then
            pushRecommendation
              (str "Focus on loyalty programs and customer retention") n
          else n
      | Some (Industry.SOLO_PROFESSIONAL | Industry.PROFESSIONAL_SERVICES) =>
          let n :=
            pushStrategicInsight
              (str "Build personal brand and professional network") n in
          if levelIs level LOW then
            pushOpportunity
              (str "Potential for premium pricing in underserved market") n
          else n
      | Some Industry.TECH_SERVICES =>
          pushRecommendation (str "Focus on technology adoption and innovation")
            (pushStrategicInsight
               (str "Consider digital marketing and online presence") n)
      | _ => n
      end
  | None => n
  end.

(** "Analysis type specific insights": the [switch]. *)
Definition analysisStage (a : AnalysisType) (count : JsInt) (radius : Q)
    (d : JsReal) (level : CompetitionLevel) (n : Notes) : Notes :=
  match a with
  | MARKET_DENSITY =>
      pushRecommendation
        [Lit "Market density: "; Fixed2Hole d; Lit " businesses per km²"] n
  | COMPETITOR_ANALYSIS =>
      let n :=
        pushRecommendation
          [IntHole count; Lit " direct competitors identified in ";
           NumHole radius; Lit "m radius"] n in
      if js_int_gt count 10 then
        pushRiskFactor
          (str "High number of competitors may indicate market saturation") n
      else n
  | LOCATION_SUITABILITY =>
      if levelIs level LOW then
        pushRecommendation
          (str "Location shows good potential for new business entry") n
      else if levelIs level SATURATED then
        pushRecommendation
          (str "Consider alternative locations with less competition") n
      else n
  | _ => n
  end.

(** [l.length > 0 ? l : undefined]. *)
Definition orUndefined {A : Type} (l : list A) : option (list A) :=
  match l with
  | [] => None
  | _ :: _ => Some l
  end.

Record BusinessIntelligence := {
  marketDensity : Text;
  competitionLevel : CompetitionLevel;
  recommendations : list Text;
  riskFactors : option (list Text);
  opportunities : option (list Text);
  strategicInsights : option (list Text)
}.

(** The arrays as they stand just before the [return]. *)
Definition collectedNotes (count : JsInt) (radius : Q) (a : AnalysisType)
    (businessContext : option BusinessContext) : Notes :=
  let d := density count radius in
  let '(level, n) := densityStage d in
  analysisStage a count radius d level (industryStage businessContext level n).

Definition generateBusinessIntelligence (count : JsInt) (radius : Q)
    (a : AnalysisType) (businessContext : option BusinessContext)
    : BusinessIntelligence :=
  let d := density count radius in
  let n := collectedNotes count radius a businessContext in
  {| marketDensity :=
       [Fixed2Hole d; Lit " businesses per km² ("; IntHole count;
        Lit " total in "; NumHole radius; Lit "m radius)"];
     competitionLevel := fst (densityStage d);
     recommendations := notedRecommendations n;
     riskFactors := orUndefined (notedRiskFactors n);
     opportunities := orUndefined (notedOpportunities n);
     strategicInsights := orUndefined (notedStrategicInsights n) |}.

(** ** The response of the service *)

(** [data.count]: the API sends a string; a number is tolerated.
    [CountNum n] is the number that [response.json()] reads from the integer
    [n]: the Number value of [n]. *)
Inductive JsCount :=
| CountStr (s : string)
| CountNum (n : Z).

(** An entry of [data.placeInsights]: [null], or any other value, whose
    [place] may be missing (the API sends an object with a string). *)
Inductive PlaceInsight :=
| NullEntry
| Entry (identifier : option string).

(** The parsed body of a successful response. [placeInsights] is [None] when
    the key is missing or is not an array. *)
Record ApiData := {
  count : option JsCount;
  placeInsights : option (list PlaceInsight)
}.

(** [Number.prototype.toString] on an integer under [10 ^ 21]: its decimal
    digits, after a minus sign when it is negative. *)
Definition numberToString (d : Z) : string :=
  NilZero.string_of_int (Z.to_int d).

(** The first digit that [Number.prototype.toString] prints for a number [d]
    of at least [10 ^ 21]. It prints the shortest decimal that reads back as
    [d], in exponent notation: its first digit is the first digit of [d],
    unless the next number of a single digit reads back as [d] too. *)
Definition firstDigitShown (d : Z) : Z :=
  let m := (Z.of_nat (Decimal.nb_digits (N.to_uint (Z.to_N d))) - 1)%Z in
  let lead := (d / 10 ^ m)%Z in
  match toNumber ((lead + 1) * 10 ^ m) with
  | Fin d' =>
      if (d' =? d)%Z then (if (lead =? 9)%Z then 1 else lead + 1)%Z else lead
  | _ => lead
  end.

(** [parseInt(data.count || '0')]: a missing count, the empty string and the
    number [0] are falsy and replaced by ['0']. A number is first turned into
    a string: under [10 ^ 21] into its digits; from there on into the exponent
    notation, of which [parseInt] reads the sign and the first digit; an
    infinity into a word that has no digit. *)
Definition parsedCount (data : ApiData) : JsInt :=
  match count data with
  | None => parseInt "0"
  | Some (CountStr s) => if String.eqb s "" then parseInt "0" else parseInt s
  | Some (CountNum n) =>
      match toNumber n with
      | Fin d =>
          if (d =? 0)%Z then parseInt "0"
          else if (Z.abs d <? 10 ^ 21)%Z then parseInt (numberToString d)
          else Fin (Z.sgn d * firstDigitShown (Z.abs d))
      | _ => NaN
      end
  end.

Record RetailMarketerInsights := {
  targetAudienceDensity : Text;
  competitivePositioning : Text;
  marketingRecommendations : list Text
}.

Definition generateRetailInsights (data : ApiData) : RetailMarketerInsights :=
  let count := parsedCount data in
  {| targetAudienceDensity :=
       if js_int_gt count 0 then
         [Lit "High customer density area ("; IntHole count;
          Lit " similar businesses)"]
       else str "Low customer density area";
     competitivePositioning :=
       if js_int_gt count 10 then
         str "Highly competitive - focus on differentiation"
       else str "Low competition - opportunity for market capture";
     marketingRecommendations :=
       [str "Develop targeted local marketing campaigns";
        str "Consider partnerships with complementary businesses";
        str "Build customer loyalty programs";
        str "Leverage social media for local engagement"] |}.

Record SoloProfessionalInsights := {
  marketGapAnalysis : Text;
  clientAcquisitionPotential : Text;
  serviceDifferentiation : list Text
}.

Definition generateSoloProfessionalInsights (data : ApiData)
    : SoloProfessionalInsights :=
  let count := parsedCount data in
  {| marketGapAnalysis :=
       if js_int_lt count 3 then str "Significant market gap - high opportunity"
       else str "Established market with moderate competition";
     clientAcquisitionPotential :=
       if js_int_lt count 5 then str "High potential for new client acquisition"
       else str "Focus on client retention and referrals";
     serviceDifferentiation :=
       [str "Develop specialized service offerings";
        str "Build personal brand and credibility";
        str "Create referral networks";
        str "Offer premium consultation services"] |}.

(** ** The result returned by [execute] *)

Record Metadata := {
  metaAnalysisType : AnalysisType;
  metaIndustry : option Industry.t;
  searchRadius : option Q;
  filterCriteria : Filter;
  timestamp : string;
  strategicContext : option BusinessContext
}.

Record ToolResult := {
  resultCount : option JsCount;
  resultPlaces : option (list (option string));
  businessIntelligence : option BusinessIntelligence;
  metadata : Metadata;
  retailMarketerInsights : option RetailMarketerInsights;
  soloProfessionalInsights : option SoloProfessionalInsights
}.

(** ** The network and the errors *)

Record RequestBody := {
  bodyInsights : list Insight;
  bodyFilter : Filter
}.

(** What [response.json()] does on a successful response: it throws, or it
    yields a value, [None] standing for a falsy one ([null], [0], [false]). *)
Inductive JsonOutcome :=
| JsonThrows (message : option string)
| JsonValue (data : option ApiData).

(** What [fetch] does: it rejects, or it resolves to a response with a status,
    the body read by [response.text()] and the body read by
    [response.json()]. *)
Inductive FetchOutcome :=
| FetchThrows (message : option string)
| Responded (status : nat) (text : string) (json : JsonOutcome).

Definition Network := nat -> RequestBody -> FetchOutcome.

(** [response.ok]. *)
Definition ok (status : nat) : bool :=
  ((200 <=? status) && (status <=? 299))%nat.

(** The errors that leave [execute]: the three that the code constructs, what
    [fetch] or [response.json()] rejected with, and the TypeError of reading
    [place] of a [null] entry, whose message is the engine's (here V8's). *)
Inductive JsError :=
| MissingApiKey
| RequestFailed (status : nat) (errorBody : string)
| Rejection (message : option string)
| NoData
| PlaceOfNull.

(** [error.message]. *)
Definition errorMessage (e : JsError) : option string :=
  match e with
  | MissingApiKey =>
      Some "Google API key not found. Please set the GOOGLE_API_KEY environment variable."
  | RequestFailed status errorBody =>
      Some ("Google Places Insights API request failed with status "
            ++ showNat status ++ ": " ++ errorBody)%string
  | Rejection message => message
  | NoData =>
      Some "Failed to get data from Google Places API after all retry attempts"
  | PlaceOfNull => Some "Cannot read properties of null (reading 'place')"
  end.

Definition capacityPhrase : string := "maximum number of allowed places".

(** [error.message?.includes('maximum number of allowed places')], read as a
    condition: [undefined] is falsy. *)
Definition messageIncludesPhrase (e : JsError) : bool :=
  match errorMessage e with
  | Some m => includes capacityPhrase m
  | None => false
  end.

(** ** The retry loop *)

Definition maxAttempts : nat := 3.

Definition validPrimaryTypes : list string :=
  ["restaurant"; "store"; "hotel"; "bank"; "school"; "gym"; "spa";
   "beauty_salon"; "lawyer"; "accounting"; "dentist"; "doctor"; "car_dealer";
   "car_rental"; "car_repair"; "gas_station"; "plumber"; "electrician";
   "contractor"; "software_company"].

(** The local [correctedPreset] of the branch taken when the new radius is
    under 50: a copy of the type filter with [fast_food] renamed and the
    unknown primary types removed. *)
Definition correctedPreset (tf : TypeFilter) : TypeFilter :=
  {| includedTypes :=
       option_map
         (map (fun type =>
                 if String.eqb type "fast_food" then "fast_food_restaurant"
                 else type))
         (includedTypes tf);
     excludedTypes := excludedTypes tf;
     includedPrimaryTypes :=
       option_map (List.filter (arrayIncludes validPrimaryTypes))
         (includedPrimaryTypes tf);
     excludedPrimaryTypes := excludedPrimaryTypes tf |}.

(** [f.locationFilter?.circle?.radius || 1000]: a missing circle and a radius
    of zero both give 1000. *)
Definition radiusOr1000 (f : Filter) : Q :=
  match circle (locationFilter f) with
  | Some c => if Qeq_bool (radius c) 0 then 1000%Q else radius c
  | None => 1000%Q
  end.

(** The filter with [locationFilter.circle.radius] replaced, every other key
    spread unchanged; a missing circle becomes one with only a radius. *)
Definition withRadius (f : Filter) (newRadius : Q) : Filter :=
  {| locationFilter :=
       {| circle :=
            Some {| latLng :=
                      match circle (locationFilter f) with
                      | Some c => latLng c
                      | None => None
                      end;
                    circlePlace :=
                      match circle (locationFilter f) with
                      | Some c => circlePlace c
                      | None => None
                      end;
                    radius := newRadius |};
          region := region (locationFilter f);
          customArea := customArea (locationFilter f) |};
     typeFilter := typeFilter f;
     operatingStatus := operatingStatus f;
     priceLevels := priceLevels f;
     ratingFilter := ratingFilter f |}.

(** [Math.floor(currentRadius * 0.25)]. *)
Definition newRadiusOf (currentFilter : Filter) : Z :=
  Qfloor (radiusOr1000 currentFilter * (1 # 4)).

(** The update of [currentFilter] in the capacity branch. Both arms of the
    test on 50 assign the same filter; [correctedPreset] is computed in the
    first and not used. The new filter is built by spreads: no object
    reachable from [enhancedFilter] is written to, so [enhancedFilter] is
    after the loop what it was before it. *)
Definition reduceRadius (currentFilter : Filter) : Filter :=
  let newRadius := newRadiusOf currentFilter in
  if (newRadius <? 50)%Z then
    let _ := correctedPreset (typeFilter currentFilter) in
    withRadius currentFilter (inject_Z newRadius)
  else
    withRadius currentFilter (inject_Z newRadius).

(** The variables of the loop, with the requests sent so far. *)
Record LoopState := {
  currentFilter : Filter;
  attempts : nat;
  sent : list RequestBody
}.

Inductive Step :=
| Continue (st : LoopState)
| Break (data : option ApiData) (st : LoopState)
| Throw (e : JsError) (st : LoopState).

(** The [catch] block. *)
Definition catchBlock (e : JsError) (st : LoopState) : Step :=
  if (maxAttempts <=? attempts st)%nat || negb (messageIncludesPhrase e) then
    Throw e st
  else
    Continue {| currentFilter := currentFilter st;
                attempts := S (attempts st);
                sent := sent st |}.

(** One pass through the body of the [while]. *)
Definition attempt (net : Network) (ins : list Insight) (st : LoopState) : Step :=
  let requestBody := {| bodyInsights := ins; bodyFilter := currentFilter st |} in
  let outcome := net (List.length (sent st)) requestBody in
  let st :=
    {| currentFilter := currentFilter st;
       attempts := attempts st;
       sent := sent st ++ [requestBody] |} in
  match outcome with
  | FetchThrows message => catchBlock (Rejection message) st
  | Responded status errorBody json =>
      if negb (ok status) then
        if (status =? 429)%nat && includes capacityPhrase errorBody then
          Continue {| currentFilter := reduceRadius (currentFilter st);
                      attempts := S (attempts st);
                      sent := sent st |}
        else catchBlock (RequestFailed status errorBody) st
      else
        match json with
        | JsonThrows message => catchBlock (Rejection message) st
        | JsonValue data => Break data st
        end
  end.

(** How the loop ends: it leaves with [data] (still [null] when the attempts
    ran out), or an error leaves [execute]. *)
Inductive LoopEnd :=
| Left (data : option ApiData) (st : LoopState)
| Raised (e : JsError) (st : LoopState).

(** [while (attempts < maxAttempts) { ... }]; [None] when [fuel] passes ran
    without the loop ending. *)
Fixpoint retryLoop (fuel : nat) (net : Network) (ins : list Insight)
    (st : LoopState) : option LoopEnd :=
  match fuel with
  | O => None
  | S fuel' =>
      if (attempts st <? maxAttempts)%nat then
        match attempt net ins st with
        | Continue st' => retryLoop fuel' net ins st'
        | Break data st' => Some (Left data st')
        | Throw e st' => Some (Raised e st')
        end
      else Some (Left None st)
  end.

(** ** [execute] *)

(** [!apiKey]: the variable is unset or empty. *)
Definition apiKeyMissing (apiKey : option string) : bool :=
  match apiKey with
  | None => true
  | Some k => String.eqb k ""
  end.

(** The guard [context.analysisType && context.analysisType !== 'CUSTOM'],
    with the analysis type it lets through. *)
Definition analysisToRun (context : Context) : option AnalysisType :=
  match analysisType context with
  | Some CUSTOM => None
  | Some a => Some a
  | None => None
  end.

(** [context.businessContext?.industry]. *)
Definition contextIndustry (context : Context) : option Industry.t :=
  match businessContext context with
  | Some bc => industry bc
  | None => None
  end.

(** [enhancedFilter.locationFilter?.circle?.radius] where it is truthy. *)
Definition truthyRadius (f : Filter) : option Q :=
  match circle (locationFilter f) with
  | Some c => if Qeq_bool (radius c) 0 then None else Some (radius c)
  | None => None
  end.

(** [insight.place]: the identifier, [undefined] when the entry has none;
    reading it from [null] throws. *)
Definition place (insight : PlaceInsight) : JsError + option string :=
  match insight with
  | NullEntry => inl PlaceOfNull
  | Entry identifier => inr identifier
  end.

(** [placeInsights.map((insight) => insight.place)]: the callback is applied
    to the entries in order, and what it throws leaves [map]. *)
Fixpoint mapPlace (entries : list PlaceInsight) : JsError + list (option string) :=
  match entries with
  | [] => inr []
  | insight :: rest =>
      match place insight with
      | inl e => inl e
      | inr p =>
          match mapPlace rest with
          | inl e => inl e
          | inr ps => inr (p :: ps)
          end
      end
  end.

(** The value of [result.places]: the mapped entries when
    [data.placeInsights] is an array, and no key otherwise. *)
Definition placesOf (data : ApiData) : JsError + option (list (option string)) :=
  match placeInsights data with
  | Some entries =>
      match mapPlace entries with
      | inl e => inl e
      | inr ps => inr (Some ps)
      end
  | None => inr None
  end.

(** The result that [execute] assembles after the loop from the parsed
    response, the context and the filter [enhancedFilter], once
    [result.places] has been computed as [places]. *)
Definition buildResult (context : Context) (enhanced : Filter) (now : string)
    (data : ApiData) (places : option (list (option string))) : ToolResult :=
  {| resultCount := count data;
     resultPlaces := places;
     businessIntelligence :=
       match analysisToRun context with
       | Some a =>
           Some (generateBusinessIntelligence (parsedCount data)
                   (radiusOr1000 enhanced) a (businessContext context))
       | None => None
       end;
     metadata :=
       {| metaAnalysisType :=
            match analysisType context with
            | Some a => a
            | None => CUSTOM
            end;
          metaIndustry := contextIndustry context;
          searchRadius :=
            match analysisToRun context with
            | Some _ => truthyRadius enhanced
            | None => None
            end;
          filterCriteria := enhanced;
          timestamp := now;
          strategicContext :=
            match contextIndustry context with
            | Some _ => businessContext context
            | None => None
            end |};
     retailMarketerInsights :=
       match contextIndustry context with
       | Some (Industry.RETAIL_GENERAL | Industry.FOOD_SERVICE) =>
           Some (generateRetailInsights data)
       | _ => None
       end;
     soloProfessionalInsights :=
       match contextIndustry context with
       | Some (Industry.SOLO_PROFESSIONAL | Industry.PROFESSIONAL_SERVICES) =>
           Some (generateSoloProfessionalInsights data)
       | _ => None
       end |}.

Inductive Outcome :=
| Returned (result : ToolResult)
| Threw (e : JsError).

(** A run of [execute]: the requests sent, in order, and how it ended. *)
Record Run := {
  requests : list RequestBody;
  outcome : Outcome
}.

(** The part of [execute] after the loop, for a truthy [data]: the TypeError
    of the places array, thrown outside the [try], or the result. *)
Definition finish (context : Context) (now : string) (data : ApiData) : Outcome :=
  match placesOf data with
  | inl e => Threw e
  | inr places =>
      Returned (buildResult context (enhancedFilter context) now data places)
  end.

Definition initialState (context : Context) : LoopState :=
  {| currentFilter := enhancedFilter context;
     attempts := 0;
     sent := [] |}.

(** [execute], given the API key of the environment, the network and the
    time. The loop is run with one pass more than [maxAttempts]. *)
Definition execute (apiKey : option string) (net : Network) (now : string)
    (context : Context) : option Run :=
  if apiKeyMissing apiKey then
    Some {| requests := []; outcome := Threw MissingApiKey |}
  else
    match retryLoop (S maxAttempts) net (insights context) (initialState context) with
    | None => None
    | Some (Raised e st) => Some {| requests := sent st; outcome := Threw e |}
    | Some (Left None st) => Some {| requests := sent st; outcome := Threw NoData |}
    | Some (Left (Some data) st) =>
        Some {| requests := sent st; outcome := finish context now data |}
    end.

(** ** Sample inputs *)

Definition circleOf (r : Q) : LocationFilter :=
  {| circle :=
       Some {| latLng := Some {| latitude := 40 # 1; longitude := (-74) # 1 |};
               circlePlace := None;
               radius := r |};
     region := None;
     customArea := None |}.

Definition typesOnly (incl : list string) : TypeFilter :=
  {| includedTypes := Some incl;
     excludedTypes := None;
     includedPrimaryTypes := None;
     excludedPrimaryTypes := None |}.

Definition sampleFilter (r : Q) (tf : TypeFilter) : Filter :=
  {| locationFilter := circleOf r;
     typeFilter := tf;
     operatingStatus := [OPERATING_STATUS_OPERATIONAL];
     priceLevels := None;
     ratingFilter := None |}.

Definition industryContext (i : Industry.t) : BusinessContext :=
  {| industry := Some i;
     targetCustomers := None;
     businessModel := None;
     strategicGoals := None;
     budgetRange := None |}.

Definition sampleContext (r : Q) (tf : TypeFilter) (a : AnalysisType)
    (bc : option BusinessContext) : Context :=
  {| insights := [INSIGHT_COUNT];
     filter := sampleFilter r tf;
     analysisType := Some a;
     businessContext := bc |}.

Definition capacityExceeded : FetchOutcome :=
  Responded 429
    "Request exceeds the maximum number of allowed places for this filter"
    (JsonValue None).

Definition success (data : ApiData) : FetchOutcome :=
  Responded 200 "" (JsonValue (Some data)).

Definition countOnly (s : string) : ApiData :=
  {| count := Some (CountStr s); placeInsights := None |}.

(** A service that always answers that the capacity is exceeded. *)
Definition alwaysCapacity : Network := fun _ _ => capacityExceeded.

(** A service that rejects the first [n] requests and then answers [data]. *)
Definition capacityThen (n : nat) (data : ApiData) : Network :=
  fun i _ => if (i <? n)%nat then capacityExceeded else success data.

Definition requestRadii (run : Run) : list (option Q) :=
  map (fun b => option_map radius (circle (locationFilter (bodyFilter b))))
    (requests run).

(** ** Vocabulary of the properties *)

Fixpoint occurs (c : ascii) (s : string) : bool :=
  match s with
  | EmptyString => false
  | String x rest => Ascii.eqb c x || occurs c rest
  end.

Definition endState (e : LoopEnd) : LoopState :=
  match e with
  | Left _ st => st
  | Raised _ st => st
  end.

(** [loops net ins st e]: started in [st], the [while] ends as [e]. *)
Inductive loops (net : Network) (ins : list Insight) : LoopState -> LoopEnd -> Prop :=
| loops_exit st :
    (attempts st <? maxAttempts)%nat = false ->
    loops net ins st (Left None st)
| loops_break st data st' :
    (attempts st <? maxAttempts)%nat = true ->
    attempt net ins st = Break data st' ->
    loops net ins st (Left data st')
| loops_throw st e st' :
    (attempts st <? maxAttempts)%nat = true ->
    attempt net ins st = Throw e st' ->
    loops net ins st (Raised e st')
| loops_continue st st' e :
    (attempts st <? maxAttempts)%nat = true ->
    attempt net ins st = Continue st' ->
    loops net ins st' e ->
    loops net ins st e.

(** How the pass that sent a request went on: the loop continued from the
    state the pass left, or the pass ended the loop. *)
Inductive passEnds (net : Network) (ins : list Insight) (st : LoopState)
    (e : LoopEnd) : Prop :=
| pass_continues st' :
    attempt net ins st = Continue st' -> loops net ins st' e ->
    passEnds net ins st e
| pass_breaks data st' :
    attempt net ins st = Break data st' -> e = Left data st' ->
    passEnds net ins st e
| pass_throws err st' :
    attempt net ins st = Throw err st' -> e = Raised err st' ->
    passEnds net ins st e.

Definition requestOf (ins : list Insight) (st : LoopState) : RequestBody :=
  {| bodyInsights := ins; bodyFilter := currentFilter st |}.

(** How [execute] ends once the loop has ended. *)
Definition outcomeOf (context : Context) (now : string) (e : LoopEnd) : Outcome :=
  match e with
  | Raised err _ => Threw err
  | Left None _ => Threw NoData
  | Left (Some data) _ => finish context now data
  end.

(** The body the result was built from: the parsed body of the response to
    the last request, when that response was [ok]. *)
Definition answeredData (net : Network) (run : Run) : option ApiData :=
  match rev (requests run) with
  | b :: _ =>
      match net (List.length (requests run) - 1)%nat b with
      | Responded status _ (JsonValue data) => if ok status then data else None
      | _ => None
      end
  | [] => None
  end.

(** The rule of the specification for one list, for comparison with the
    merge of the code: the user's list when it was supplied non-empty, the
    preset's otherwise. *)
Definition userListWins (user presetList : option (list string))
    : option (list string) :=
  if nonEmptyList user then user else presetList.

(** What the code does with one list: the preset's when the preset defines
    the key, the user's otherwise. *)
Definition takenFrom (presetList userList effective : option (list string)) : Prop :=
  match presetList with
  | Some l => effective = Some l
  | None => effective = userList
  end.

Definition requestTypeFilters (run : Run) : list TypeFilter :=
  map (fun b => typeFilter (bodyFilter b)) (requests run).

(** The rule of the specification for the places array, for comparison with
    the code: the identifiers of the entries that have one, the others
    dropped. *)
Definition identifiersPresent (entries : list PlaceInsight) : list string :=
  flat_map (fun e => match e with
                     | Entry (Some p) => [p]
                     | _ => []
                     end) entries.

(** The key [places] of [outputSchema], [z.array(z.string()).optional()]:
    the key is absent, or every element of the array is a string. *)
Definition outputSchemaPlaces (places : option (list (option string))) : bool :=
  match places with
  | Some ps => forallb (fun p => match p with
                                 | Some _ => true
                                 | None => false
                                 end) ps
  | None => true
  end.

(** ** Sample contexts and runs *)

(** A caller asking for cafes in the food-service industry. *)
Definition cafeContext : Context :=
  sampleContext 1000 (typesOnly ["cafe"]) MARKET_DENSITY
    (Some (industryContext Industry.FOOD_SERVICE)).

(** A caller asking for fast food within 100 metres, with no business
    context. *)
Definition fastFoodContext : Context :=
  sampleContext 100 (typesOnly ["fast_food"]) MARKET_DENSITY None.

(** The run of [fastFoodContext] against a service that always refuses. *)
Definition fastFoodRun : Run :=
  {| requests :=
       [requestOf [INSIGHT_COUNT] (initialState fastFoodContext);
        {| bodyInsights := [INSIGHT_COUNT];
           bodyFilter := sampleFilter (inject_Z 25) (typesOnly ["fast_food"]) |};
        {| bodyInsights := [INSIGHT_COUNT];
           bodyFilter := sampleFilter (inject_Z 6) (typesOnly ["fast_food"]) |}];
     outcome := Threw NoData |}.

(** A type filter with the deprecated tag and with a primary type outside
    the accepted vocabulary. *)
Definition repairableTypes : TypeFilter :=
  {| includedTypes := Some ["fast_food"; "cafe"];
     excludedTypes := None;
     includedPrimaryTypes := Some ["restaurant"; "pharmacy"];
     excludedPrimaryTypes := None |}.

Definition repairContext : Context :=
  sampleContext 100 repairableTypes MARKET_DENSITY None.

(** A caller asking for cafes within a kilometre, with no business context. *)
Definition shrinkContext : Context :=
  sampleContext 1000 (typesOnly ["cafe"]) MARKET_DENSITY None.

(** The service refuses the request for a kilometre and answers the next one
    with a count of 5. *)
Definition shrinkRun : Run :=
  {| requests :=
       [requestOf [INSIGHT_COUNT] (initialState shrinkContext);
        {| bodyInsights := [INSIGHT_COUNT];
           bodyFilter := sampleFilter (inject_Z 250) (typesOnly ["cafe"]) |}];
     outcome :=
       Returned (buildResult shrinkContext (enhancedFilter shrinkContext) "now"
                   (countOnly "5") None) |}.

(** A response with neither a count nor places. *)
Definition noCount : ApiData := {| count := None; placeInsights := None |}.

Definition noCountRun : Run :=
  {| requests := [requestOf [INSIGHT_COUNT] (initialState shrinkContext)];
     outcome :=
       Returned (buildResult shrinkContext (enhancedFilter shrinkContext) "now"
                   noCount None) |}.

(** A caller asking for the places as well as their count. *)
Definition placesContext : Context :=
  {| insights := [INSIGHT_COUNT; INSIGHT_PLACES];
     filter := sampleFilter 1000 (typesOnly ["cafe"]);
     analysisType := Some MARKET_DENSITY;
     businessContext := None |}.

(** A response of three entries, the second without an identifier. *)
Definition threeEntries : list PlaceInsight :=
  [Entry (Some "places/a"); Entry None; Entry (Some "places/b")].

Definition threePlaces : ApiData :=
  {| count := Some (CountStr "3"); placeInsights := Some threeEntries |}.

(** What [map] makes of the three entries. *)
Definition threeIdentifiers : list (option string) :=
  [Some "places/a"; None; Some "places/b"].

(** A response of three entries, the second of them [null]. *)
Definition nullEntries : list PlaceInsight :=
  [Entry (Some "places/a"); NullEntry; Entry (Some "places/b")].

Definition nullPlaces : ApiData :=
  {| count := Some (CountStr "3"); placeInsights := Some nullEntries |}.

Definition nullPlacesRun : Run :=
  {| requests :=
       [requestOf [INSIGHT_COUNT; INSIGHT_PLACES] (initialState placesContext)];
     outcome := Threw PlaceOfNull |}.

Definition threePlacesRun : Run :=
  {| requests :=
       [requestOf [INSIGHT_COUNT; INSIGHT_PLACES] (initialState placesContext)];
     outcome :=
       Returned (buildResult placesContext (enhancedFilter placesContext) "now"
                   threePlaces (Some threeIdentifiers)) |}.

Definition customContext : Context :=
  sampleContext 1000 (typesOnly ["cafe"]) CUSTOM
    (Some (industryContext Industry.FOOD_SERVICE)).

Definition customRun : Run :=
  {| requests := [requestOf [INSIGHT_COUNT] (initialState customContext)];
     outcome :=
       Returned (buildResult customContext (enhancedFilter customContext) "now"
                   threePlaces (Some threeIdentifiers)) |}.

(** A service that fails with a 500 whose body quotes the capacity phrase. *)
Definition serverError : FetchOutcome :=
  Responded 500
    "Internal error while checking the maximum number of allowed places"
    (JsonValue None).

Definition alwaysServerError : Network := fun _ _ => serverError.

Definition serverErrorRun : Run :=
  {| requests :=
       [requestOf [INSIGHT_COUNT] (initialState fastFoodContext);
        requestOf [INSIGHT_COUNT] (initialState fastFoodContext);
        requestOf [INSIGHT_COUNT] (initialState fastFoodContext)];
     outcome := Threw NoData |}.

(** A service that fails with a 500 and a body without the phrase. *)
Definition plainServerError : Network :=
  fun _ _ => Responded 500 "Internal Server Error" (JsonValue None).

Definition plainServerErrorRun : Run :=
  {| requests := [requestOf [INSIGHT_COUNT] (initialState fastFoodContext)];
     outcome := Threw (RequestFailed 500 "Internal Server Error") |}.

(** ** Proof automation *)

(** Case analysis on a pass whose result is known: on what [fetch] did and on
    every test of the body. *)
Ltac attempt_cases H :=
  unfold attempt, catchBlock in H;
  match type of H with
  | context [match ?outcome with FetchThrows _ => _ | Responded _ _ _ => _ end] =>
      destruct outcome as [?m|?status ?body [?m|?d]] eqn:?Hnet
  end;
  repeat match type of H with
         | context [if ?c then _ else _] => destruct c eqn:?
         end;
  inversion H; subst; clear H.

(** ** The refinements of the input schema *)

Definition isSome {A : Type} (o : option A) : bool :=
  match o with
  | Some _ => true
  | None => false
  end.

(** A string key that is present and not empty. *)
Definition truthyString (s : option string) : bool :=
  match s with
  | Some v => negb (String.eqb v "")
  | None => false
  end.

(** The [refine] of [locationFilterSchema]:
    [(circle && (circle.latLng || circle.place)) || region || customArea]. *)
Definition locationFilterRefine (lf : LocationFilter) : bool :=
  match circle lf with
  | Some c => isSome (latLng c) || truthyString (circlePlace c)
  | None => false
  end
  || isSome (region lf) || isSome (customArea lf).

(** The two refinements on a filter. *)
Definition refinementsHold (f : Filter) : Prop :=
  locationFilterRefine (locationFilter f) = true
  /\ typeFilterRefine (typeFilter f) = true.

(** ** More vocabulary of the properties *)

(** The error a pass throws inside its [try], if it throws one: a rejected
    [fetch], a response that is not [ok] and is not the capacity signature,
    or a body that [response.json()] cannot read. *)
Definition thrownError (o : FetchOutcome) : option JsError :=
  match o with
  | FetchThrows message => Some (Rejection message)
  | Responded status errorBody json =>
      if negb (ok status) then
        if (status =? 429)%nat && includes capacityPhrase errorBody then None
        else Some (RequestFailed status errorBody)
      else
        match json with
        | JsonThrows message => Some (Rejection message)
        | JsonValue _ => None
        end
  end.

(** The message of an exception raised by [fetch] or by [response.json()]. *)
Definition raised (o : FetchOutcome) : option (option string) :=
  match thrownError o with
  | Some (Rejection message) => Some message
  | _ => None
  end.

(** ** More sample inputs and runs *)

(** A caller asking for cafes in a region, with no circle. *)
Definition regionOnly : LocationFilter :=
  {| circle := None;
     region := Some {| regionPlace := "places/region-1" |};
     customArea := None |}.

Definition regionContext : Context :=
  {| insights := [INSIGHT_COUNT];
     filter :=
       {| locationFilter := regionOnly;
          typeFilter := typesOnly ["cafe"];
          operatingStatus := [OPERATING_STATUS_OPERATIONAL];
          priceLevels := None;
          ratingFilter := None |};
     analysisType := Some MARKET_DENSITY;
     businessContext := None |}.

Definition regionRun : Run :=
  {| requests :=
       [requestOf [INSIGHT_COUNT] (initialState regionContext);
        {| bodyInsights := [INSIGHT_COUNT];
           bodyFilter :=
             {| locationFilter :=
                  {| circle :=
                       Some {| latLng := None;
                               circlePlace := None;
                               radius := 250 |};
                     region := Some {| regionPlace := "places/region-1" |};
                     customArea := None |};
                typeFilter := typesOnly ["cafe"];
                operatingStatus := [OPERATING_STATUS_OPERATIONAL];
                priceLevels := None;
                ratingFilter := None |} |}];
     outcome :=
       Returned (buildResult regionContext (enhancedFilter regionContext) "now"
                   (countOnly "5") None) |}.

(** A service that answers 200 with the body [null]. *)
Definition nullBody : Network :=
  fun _ _ => Responded 200 "null" (JsonValue None).

Definition nullBodyRun : Run :=
  {| requests := [requestOf [INSIGHT_COUNT] (initialState fastFoodContext)];
     outcome := Threw NoData |}.

(** A network that is down: [fetch] rejects with a message of its own. *)
Definition networkDown : Network :=
  fun _ _ => FetchThrows (Some "fetch failed").

Definition networkDownRun : Run :=
  {| requests := [requestOf [INSIGHT_COUNT] (initialState fastFoodContext)];
     outcome := Threw (Rejection (Some "fetch failed")) |}.

(** ** Vocabulary of the result and of the count *)

(** The industries that get the insights for retail marketers, and those
    that get the insights for solo professionals. *)
Definition retailIndustry (i : option Industry.t) : bool :=
  match i with
  | Some (Industry.RETAIL_GENERAL | Industry.FOOD_SERVICE) => true
  | _ => false
  end.

Definition soloIndustry (i : option Industry.t) : bool :=
  match i with
  | Some (Industry.SOLO_PROFESSIONAL | Industry.PROFESSIONAL_SERVICES) => true
  | _ => false
  end.

(** The number a string of decimal digits stands for, read from the left
    with [acc] the number read so far. *)
Fixpoint uintZ (d : Decimal.uint) (acc : Z) : Z :=
  match d with
  | Decimal.Nil => acc
  | Decimal.D0 d' => uintZ d' (acc * 10 + 0)
  | Decimal.D1 d' => uintZ d' (acc * 10 + 1)
  | Decimal.D2 d' => uintZ d' (acc * 10 + 2)
  | Decimal.D3 d' => uintZ d' (acc * 10 + 3)
  | Decimal.D4 d' => uintZ d' (acc * 10 + 4)
  | Decimal.D5 d' => uintZ d' (acc * 10 + 5)
  | Decimal.D6 d' => uintZ d' (acc * 10 + 6)
  | Decimal.D7 d' => uintZ d' (acc * 10 + 7)
  | Decimal.D8 d' => uintZ d' (acc * 10 + 8)
  | Decimal.D9 d' => uintZ d' (acc * 10 + 9)
  end.

(** ** The summarizer tool ([src/mastra/tools/summarizer-tool.ts]) *)

(** The four keys of [data] the tool reads. A key is [None] when it is
    missing or holds a falsy value, and [Some s] when it holds a truthy value
    that [JSON.stringify(value, null, 2)] renders as [s]. *)
Record SummaryData := {
  data_aggregation : option string;
  data_collection : option string;
  direct_search : option string;
  planning : option string
}.

(** The line feed of the template literals. *)
Definition nl : string := String (ascii_of_nat 10) EmptyString.

(** One [if (data.key) summaryText += ...]: title, value and a blank line. *)
Definition summarySection (title : string) (value : option string) : string :=
  match value with
  | Some rendered => (title ++ nl ++ rendered ++ nl ++ nl)%string
  | None => EmptyString
  end.

Definition summaryText (query : string) (data : SummaryData) : string :=
  (("Query: " ++ query ++ nl ++ nl)
   ++ summarySection "Data Aggregation Results:" (data_aggregation data)
   ++ summarySection "Data Collection Results:" (data_collection data)
   ++ summarySection "Direct Search Results:" (direct_search data)
   ++ summarySection "Planning Results:" (planning data))%string.

Definition summaryPrompt (query : string) (data : SummaryData) : string :=
  ("Please provide a concise summary of the following data in response to the user's query:"
   ++ nl ++ nl ++ summaryText query data)%string.

(** What [summarizerAgent.generate(prompt)] does: it throws, or it answers
    with a response whose [text] may be missing. *)
Inductive AgentOutcome :=
| AgentThrows (message : string)
| AgentResponds (text : option string).

Inductive SummarizeEnd :=
| Summary (text : string)
| AgentError (message : string)
| EmptyResponse.

(** [execute] of the summarizer tool, given the agent. [EmptyResponse] is the
    error 'Summarizer Agent returned an empty response.' *)
Definition summarize (agent : string -> AgentOutcome) (query : string)
    (data : SummaryData) : SummarizeEnd :=
  match agent (summaryPrompt query data) with
  | AgentThrows message => AgentError message
  | AgentResponds text =>
      if truthyString text then
        match text with
        | Some t => Summary t
        | None => EmptyResponse
        end
      else EmptyResponse
  end.

(** An agent that repeats its prompt. *)
Definition echoAgent : string -> AgentOutcome :=
  fun prompt => AgentResponds (Some prompt).

Definition searchOnly : SummaryData :=
  {| data_aggregation := None;
     data_collection := None;
     direct_search := Some "[]";
     planning := None |}.

(** ** Choosing the response type ([src/places/places.service.ts]) *)

(** The members of [ResponseType] that the service uses; the enum itself is
    declared in a file that is not among the sources. *)
Inductive ResponseType := TEXT | GEOJSON | ANALYSIS.

(** [String.prototype.toLowerCase] on a message of ASCII characters. *)
Definition lowerAscii (c : ascii) : ascii :=
  let n := nat_of_ascii c in
  if ((65 <=? n) && (n <=? 90))%nat then ascii_of_nat (n + 32) else c.

Fixpoint toLowerCase (s : string) : string :=
  match s with
  | EmptyString => EmptyString
  | String c rest => String (lowerAscii c) (toLowerCase rest)
  end.

Fixpoint isAscii (s : string) : bool :=
  match s with
  | EmptyString => true
  | String c rest => (nat_of_ascii c <? 128)%nat && isAscii rest
  end.

Definition mapKeywords : list string :=
  ["map"; "show on map"; "visualize"; "plot"; "geojson"; "locations";
   "where are"; "show me on"; "display on map"; "geographic"; "coordinates"].

Definition analysisKeywords : list string :=
  ["analyze"; "analysis"; "comprehensive"; "detailed"; "compare"; "trends";
   "patterns"; "insights"; "statistics"; "metrics"; "report"; "breakdown"].

(** What [determineAutoResponseType] does: it returns a type, or reading
    [analysis.type] throws because [analysis] is [null] or [undefined]. *)
Inductive Determined :=
| Decided (t : ResponseType)
| TypeErrorThrown.

(** [determineAutoResponseType(analysis, message)]; [analysis] is [None] for
    [null] or [undefined], and otherwise holds its [type], if it has one. *)
Definition determineAutoResponseType (analysis : option (option string))
    (message : string) : Determined :=
  let lowerMessage := toLowerCase message in
  if existsb (fun keyword => includes keyword lowerMessage) mapKeywords then
    Decided GEOJSON
  else if existsb (fun keyword => includes keyword lowerMessage) analysisKeywords
  then Decided ANALYSIS
  else
    match analysis with
    | None => TypeErrorThrown
    | Some type =>
        match type with
        | Some t =>
            if String.eqb t "MAP_DATA_ONLY" then Decided GEOJSON
            else if String.eqb t "ANALYTICS" || String.eqb t "COMPREHENSIVE"
            then Decided ANALYSIS
            else Decided TEXT
        | None => Decided TEXT
        end
    end.

(** ** Vocabulary of the classification *)

(** The tiers in their order, LOW first. *)
Definition levelRank (level : CompetitionLevel) : nat :=
  match level with
  | LOW => 0
  | MODERATE => 1
  | HIGH => 2
  | SATURATED => 3
  end.

(** [businessContext?.industry]. *)
Definition industryOf (bc : option BusinessContext) : option Industry.t :=
  match bc with
  | Some c => industry c
  | None => None
  end.

(** The industries for which [generateBusinessIntelligence] has a strategic
    insight of its own. *)
Definition industryHasInsight (i : option Industry.t) : bool :=
  match i with
  | Some (Industry.RETAIL_GENERAL | Industry.FOOD_SERVICE
         | Industry.SOLO_PROFESSIONAL | Industry.PROFESSIONAL_SERVICES
         | Industry.TECH_SERVICES) => true
  | _ => false
  end.

(** [l'] is [l] with elements appended. *)
Definition extends {A : Type} (l l' : list A) : Prop :=
  exists added, l' = l ++ added.

Definition notesExtend (n n' : Notes) : Prop :=
  extends (notedRecommendations n) (notedRecommendations n')
  /\ extends (notedRiskFactors n) (notedRiskFactors n')
  /\ extends (notedOpportunities n) (notedOpportunities n')
  /\ extends (notedStrategicInsights n) (notedStrategicInsights n').

(** The tier of a count at a radius of 1000, by the count alone. *)
Definition tierAtOneKilometre (n : Z) : CompetitionLevel :=
  if (n <=? 3)%Z then LOW
  else if (n <=? 15)%Z then MODERATE
  else if (n <=? 47)%Z then HIGH
  else SATURATED.

(** * Properties *)

(** ** Strings: where the capacity phrase can occur in an error message *)

Lemma occurs_append (c : ascii) (a b : string) :
  occurs c (a ++ b)%string = occurs c a || occurs c b.
Proof.
  induction a as [|x a IH]; simpl; [reflexivity|].
  rewrite IH. apply orb_assoc.
Qed.

(** A needle does not start inside a text that lacks its first character. *)
Lemma includes_skip (c : ascii) (needle a b : string) :
  occurs c a = false ->
  includes (String c needle) (a ++ b)%string = includes (String c needle) b.
Proof.
  induction a as [|x a IH]; intros Hocc; [reflexivity|].
  simpl in Hocc. apply orb_false_iff in Hocc as [Hx Ha].
  change (String x a ++ b)%string with (String x (a ++ b)%string).
  cbn [includes String.prefix].
  destruct (ascii_dec c x) as [->|_].
  - rewrite Ascii.eqb_refl in Hx. discriminate.
  - simpl. apply IH, Ha.
Qed.

Lemma digits_lack_m (d : Decimal.uint) :
  occurs "m"%char (NilEmpty.string_of_uint d) = false.
Proof. induction d; simpl; auto. Qed.

Lemma showNat_lacks_m (n : nat) : occurs "m"%char (showNat n) = false.
Proof.
  unfold showNat, NilZero.string_of_uint.
  destruct (Nat.to_uint n); try apply digits_lack_m. reflexivity.
Qed.

Lemma append_assoc (a b c : string) :
  (a ++ (b ++ c))%string = ((a ++ b) ++ c)%string.
Proof. induction a as [|x a IH]; simpl; [reflexivity|]. now rewrite IH. Qed.

(** The message of a failed request contains the phrase exactly when the body
    of the response does. *)
Lemma request_failed_message (status : nat) (errorBody : string) :
  messageIncludesPhrase (RequestFailed status errorBody)
  = includes capacityPhrase errorBody.
Proof.
  unfold messageIncludesPhrase, errorMessage, capacityPhrase.
  rewrite (append_assoc (showNat status)), append_assoc.
  apply includes_skip.
  rewrite !occurs_append, showNat_lacks_m. reflexivity.
Qed.

(** ** The loop as a relation *)

Lemma retryLoop_loops net ins fuel st e :
  retryLoop fuel net ins st = Some e -> loops net ins st e.
Proof.
  revert st. induction fuel as [|fuel IH]; intros st H; [discriminate|].
  simpl in H.
  destruct (attempts st <? maxAttempts)%nat eqn:Hlt.
  - destruct (attempt net ins st) as [st'|data st'|err st'] eqn:Hstep.
    + eapply loops_continue; eauto.
    + inversion H; subst. eapply loops_break; eauto.
    + inversion H; subst. eapply loops_throw; eauto.
  - inversion H; subst. now apply loops_exit.
Qed.

(** Every pass that continues counts one attempt and sends one request. *)
Lemma attempt_continue net ins st st' :
  attempt net ins st = Continue st' ->
  attempts st' = S (attempts st)
  /\ sent st' = sent st ++ [{| bodyInsights := ins; bodyFilter := currentFilter st |}].
Proof.
  intros H. attempt_cases H; simpl; auto.
Qed.

Lemma attempt_sent net ins st :
  sent (match attempt net ins st with
        | Continue st' | Break _ st' | Throw _ st' => st'
        end)
  = sent st ++ [{| bodyInsights := ins; bodyFilter := currentFilter st |}].
Proof.
  unfold attempt, catchBlock.
  destruct (net _ _) as [m|status body [m|data]];
    repeat match goal with
           | |- context [if ?c then _ else _] => destruct c
           end;
    reflexivity.
Qed.

(** The loop ends: [maxAttempts - attempts] passes and one more test of the
    condition are enough. *)
Lemma retryLoop_terminates net ins fuel st :
  (maxAttempts - attempts st < fuel)%nat ->
  exists e, retryLoop fuel net ins st = Some e.
Proof.
  revert st. induction fuel as [|fuel IH]; intros st Hfuel; [lia|].
  simpl.
  destruct (attempts st <? maxAttempts)%nat eqn:Hlt.
  - apply Nat.ltb_lt in Hlt.
    destruct (attempt net ins st) as [st'|data st'|err st'] eqn:Hstep; eauto.
    apply attempt_continue in Hstep as [Hatt _].
    apply IH. lia.
  - eauto.
Qed.

(** [execute] always ends, by returning or by throwing. *)
Theorem execute_total apiKey net now context :
  exists run, execute apiKey net now context = Some run.
Proof.
  unfold execute.
  destruct (apiKeyMissing apiKey); [eauto|].
  destruct (retryLoop_terminates net (insights context) (S maxAttempts)
              (initialState context)) as [e He].
  { simpl. unfold maxAttempts. lia. }
  rewrite He. destruct e as [[data|] st|err st]; eauto.
Qed.

(** ** Invariants of the loop *)

Lemma attempt_break_sent net ins st data st' :
  attempt net ins st = Break data st' -> sent st' = sent st ++ [requestOf ins st].
Proof. intros H. pose proof (attempt_sent net ins st) as Hs. now rewrite H in Hs. Qed.

Lemma attempt_throw_sent net ins st e st' :
  attempt net ins st = Throw e st' -> sent st' = sent st ++ [requestOf ins st].
Proof. intros H. pose proof (attempt_sent net ins st) as Hs. now rewrite H in Hs. Qed.

Lemma attempt_continue_sent net ins st st' :
  attempt net ins st = Continue st' -> sent st' = sent st ++ [requestOf ins st].
Proof. intros H. pose proof (attempt_sent net ins st) as Hs. now rewrite H in Hs. Qed.

(** The requests already sent stay in front of the later ones. *)
Lemma loops_extends net ins st e :
  loops net ins st e -> exists suffix, sent (endState e) = sent st ++ suffix.
Proof.
  induction 1 as [st Hlt|st data st' Hlt Hstep|st err st' Hlt Hstep
                 |st st' e Hlt Hstep Hloop [suffix IH]]; simpl.
  - exists []. now rewrite app_nil_r.
  - eexists. eapply attempt_break_sent, Hstep.
  - eexists. eapply attempt_throw_sent, Hstep.
  - rewrite IH, (attempt_continue_sent _ _ _ _ Hstep), <- app_assoc. eauto.
Qed.

(** The request sent next carries the current filter. *)
Lemma loops_next_request net ins st e b :
  loops net ins st e ->
  nth_error (sent (endState e)) (List.length (sent st)) = Some b ->
  b = requestOf ins st.
Proof.
  intros Hloop. destruct Hloop as [st Hlt|st data st' Hlt Hstep|st err st' Hlt Hstep
                                  |st st' e Hlt Hstep Hloop]; simpl.
  - intros H. assert (Hlen : (List.length (sent st) < List.length (sent st))%nat)
      by (apply nth_error_Some; congruence). lia.
  - rewrite (attempt_break_sent _ _ _ _ _ Hstep), nth_error_app2, Nat.sub_diag by lia.
    simpl. congruence.
  - rewrite (attempt_throw_sent _ _ _ _ _ Hstep), nth_error_app2, Nat.sub_diag by lia.
    simpl. congruence.
  - destruct (loops_extends _ _ _ _ Hloop) as [suffix ->].
    rewrite (attempt_continue_sent _ _ _ _ Hstep), <- app_assoc.
    rewrite nth_error_app2, Nat.sub_diag by lia. simpl. congruence.
Qed.

(** At most [maxAttempts] requests are sent. *)
Lemma loops_bound net ins st e :
  loops net ins st e ->
  List.length (sent st) = attempts st ->
  (attempts st <= maxAttempts)%nat ->
  (List.length (sent (endState e)) <= maxAttempts)%nat.
Proof.
  induction 1 as [st Hlt|st data st' Hlt Hstep|st err st' Hlt Hstep
                 |st st' e Hlt Hstep Hloop IH]; simpl; intros Hlen Hle.
  - lia.
  - apply Nat.ltb_lt in Hlt.
    rewrite (attempt_break_sent _ _ _ _ _ Hstep), length_app. simpl. lia.
  - apply Nat.ltb_lt in Hlt.
    rewrite (attempt_throw_sent _ _ _ _ _ Hstep), length_app. simpl. lia.
  - apply Nat.ltb_lt in Hlt.
    pose proof (attempt_continue _ _ _ _ Hstep) as [Hatt Hsent].
    apply IH.
    + rewrite Hsent, length_app. simpl. lia.
    + lia.
Qed.

Lemma reduceRadius_withRadius f :
  reduceRadius f = withRadius f (inject_Z (newRadiusOf f)).
Proof. unfold reduceRadius. now destruct (newRadiusOf f <? 50)%Z. Qed.

Lemma reduceRadius_typeFilter f : typeFilter (reduceRadius f) = typeFilter f.
Proof. now rewrite reduceRadius_withRadius. Qed.

(** A pass that continues leaves the type filter as it was. *)
Lemma attempt_continue_typeFilter net ins st st' :
  attempt net ins st = Continue st' ->
  typeFilter (currentFilter st') = typeFilter (currentFilter st).
Proof.
  intros H. attempt_cases H; simpl; auto using reduceRadius_typeFilter.
Qed.

Lemma loops_typeFilter net ins st e tf :
  loops net ins st e ->
  typeFilter (currentFilter st) = tf ->
  Forall (fun b => typeFilter (bodyFilter b) = tf) (sent st) ->
  Forall (fun b => typeFilter (bodyFilter b) = tf) (sent (endState e)).
Proof.
  induction 1 as [st Hlt|st data st' Hlt Hstep|st err st' Hlt Hstep
                 |st st' e Hlt Hstep Hloop IH]; simpl; intros Htf Hall.
  - assumption.
  - rewrite (attempt_break_sent _ _ _ _ _ Hstep). apply Forall_app. split; auto.
  - rewrite (attempt_throw_sent _ _ _ _ _ Hstep). apply Forall_app. split; auto.
  - apply IH.
    + now rewrite (attempt_continue_typeFilter _ _ _ _ Hstep).
    + rewrite (attempt_continue_sent _ _ _ _ Hstep). apply Forall_app. split; auto.
Qed.

(** ** What each kind of response does to a pass *)

(** A response that is not [ok] and whose body lacks the phrase ends
    [execute] with the error of the request. *)
Lemma attempt_fatal net ins st status body json :
  net (List.length (sent st)) (requestOf ins st) = Responded status body json ->
  ok status = false ->
  includes capacityPhrase body = false ->
  exists st', attempt net ins st = Throw (RequestFailed status body) st'.
Proof.
  intros Hnet Hok Hbody. unfold attempt, catchBlock.
  fold (requestOf ins st). rewrite Hnet, Hok, Hbody, andb_false_r. simpl negb.
  cbv iota. rewrite request_failed_message, Hbody, orb_true_r. eauto.
Qed.

(** An [ok] response whose body parsed makes the pass break out. *)
Lemma attempt_ok net ins st status text data :
  net (List.length (sent st)) (requestOf ins st)
  = Responded status text (JsonValue data) ->
  ok status = true ->
  exists st', attempt net ins st = Break data st'.
Proof.
  intros Hnet Hok. unfold attempt. fold (requestOf ins st).
  rewrite Hnet, Hok. simpl. eauto.
Qed.

(** A 429 whose body has the phrase is retried with the radius cut. *)
Lemma attempt_capacity net ins st body json :
  net (List.length (sent st)) (requestOf ins st) = Responded 429 body json ->
  includes capacityPhrase body = true ->
  attempt net ins st
  = Continue {| currentFilter := reduceRadius (currentFilter st);
                attempts := S (attempts st);
                sent := sent st ++ [requestOf ins st] |}.
Proof.
  intros Hnet Hbody. unfold attempt. fold (requestOf ins st).
  rewrite Hnet, Hbody. reflexivity.
Qed.

(** A pass breaks out of the loop only on an [ok] response whose body parsed. *)
Lemma attempt_break net ins st data st' :
  attempt net ins st = Break data st' ->
  exists status text,
    net (List.length (sent st)) (requestOf ins st)
    = Responded status text (JsonValue data)
    /\ ok status = true.
Proof.
  intros H. attempt_cases H.
  eexists _, _. split; [eassumption|].
  now destruct (ok _).
Qed.

(** The data the loop leaves with is the body of the response to the last
    request. *)
Lemma loops_returned net ins st data st' :
  loops net ins st (Left (Some data) st') ->
  exists init b status text,
    sent st' = init ++ [b]
    /\ net (List.length init) b = Responded status text (JsonValue (Some data))
    /\ ok status = true.
Proof.
  intros Hloop. remember (Left (Some data) st') as e eqn:He.
  induction Hloop as [st Hlt|st d st1 Hlt Hstep|st err st1 Hlt Hstep
                     |st st1 e Hlt Hstep Hloop IH]; try discriminate.
  - inversion He; subst.
    destruct (attempt_break _ _ _ _ _ Hstep) as (status & text & Hnet & Hok).
    exists (sent st), (requestOf ins st), status, text.
    split; [eapply attempt_break_sent, Hstep | auto].
  - auto.
Qed.

Lemma nth_error_snoc {A : Type} (l : list A) (x b : A) (i : nat) :
  nth_error (l ++ [x]) i = Some b ->
  (List.length l <= i)%nat ->
  i = List.length l /\ b = x.
Proof.
  intros Hnth Hi.
  assert (Hlen : (i < List.length (l ++ [x]))%nat)
    by (apply nth_error_Some; congruence).
  rewrite length_app in Hlen. simpl in Hlen.
  assert (i = List.length l) by lia. subst i.
  rewrite nth_error_app2, Nat.sub_diag in Hnth by lia.
  split; [reflexivity | simpl in Hnth; congruence].
Qed.

(** Every request of the trace was sent by a pass of the loop, from a state
    that had sent the requests before it. *)
Lemma loops_request_pass net ins st e i b :
  loops net ins st e ->
  (List.length (sent st) <= i)%nat ->
  nth_error (sent (endState e)) i = Some b ->
  exists st_i,
    List.length (sent st_i) = i
    /\ b = requestOf ins st_i
    /\ passEnds net ins st_i e.
Proof.
  intros Hloop. revert i.
  induction Hloop as [st Hlt|st d st1 Hlt Hstep|st err st1 Hlt Hstep
                     |st st1 e Hlt Hstep Hloop IH];
    intros i Hi Hnth; cbn [endState] in *.
  - assert (i < List.length (sent st))%nat by (apply nth_error_Some; congruence). lia.
  - rewrite (attempt_break_sent _ _ _ _ _ Hstep) in Hnth.
    destruct (nth_error_snoc _ _ _ _ Hnth Hi) as [-> ->].
    exists st. repeat split. eapply pass_breaks; eauto.
  - rewrite (attempt_throw_sent _ _ _ _ _ Hstep) in Hnth.
    destruct (nth_error_snoc _ _ _ _ Hnth Hi) as [-> ->].
    exists st. repeat split. eapply pass_throws; eauto.
  - destruct (Nat.eq_dec i (List.length (sent st))) as [->|Hne].
    + pose proof (loops_next_request _ _ _ _ b
                    (loops_continue _ _ _ _ _ Hlt Hstep Hloop) Hnth) as ->.
      exists st. repeat split. eapply pass_continues; eauto.
    + apply IH; auto.
      rewrite (attempt_continue_sent _ _ _ _ Hstep), length_app. simpl. lia.
Qed.

(** An error response without the phrase is the last thing that happens. *)
Lemma loops_fatal net ins st e i b status body json :
  loops net ins st e ->
  (List.length (sent st) <= i)%nat ->
  nth_error (sent (endState e)) i = Some b ->
  net i b = Responded status body json ->
  ok status = false ->
  includes capacityPhrase body = false ->
  List.length (sent (endState e)) = S i
  /\ exists st', e = Raised (RequestFailed status body) st'.
Proof.
  intros Hloop Hi Hnth Hnet Hok Hbody.
  destruct (loops_request_pass _ _ _ _ _ _ Hloop Hi Hnth) as (st_i & <- & -> & Hpass).
  destruct (attempt_fatal _ ins _ _ _ _ Hnet Hok Hbody) as [st2 Hthrow].
  destruct Hpass as [st' Hstep _|data st' Hstep _|err st' Hstep ->];
    rewrite Hstep in Hthrow; inversion Hthrow; subst.
  split; [|eauto]. cbn [endState].
  rewrite (attempt_throw_sent _ _ _ _ _ Hstep), length_app. simpl. lia.
Qed.

(** An [ok] response whose body parsed ends the loop with its data. *)
Lemma loops_ok_response net ins st e i b status text data :
  loops net ins st e ->
  (List.length (sent st) <= i)%nat ->
  nth_error (sent (endState e)) i = Some b ->
  net i b = Responded status text (JsonValue data) ->
  ok status = true ->
  exists st', e = Left data st'.
Proof.
  intros Hloop Hi Hnth Hnet Hok.
  destruct (loops_request_pass _ _ _ _ _ _ Hloop Hi Hnth) as (st_i & <- & -> & Hpass).
  destruct (attempt_ok _ ins _ _ _ _ Hnet Hok) as [st2 Hbreak].
  destruct Hpass as [st' Hstep _|d st' Hstep ->|err st' Hstep _];
    rewrite Hstep in Hbreak; inversion Hbreak; subst.
  eauto.
Qed.

(** After a capacity response the next request carries the reduced radius. *)
Lemma loops_capacity_step net ins st e i b b' body json :
  loops net ins st e ->
  (List.length (sent st) <= i)%nat ->
  nth_error (sent (endState e)) i = Some b ->
  nth_error (sent (endState e)) (S i) = Some b' ->
  net i b = Responded 429 body json ->
  includes capacityPhrase body = true ->
  bodyFilter b' = reduceRadius (bodyFilter b).
Proof.
  intros Hloop Hi Hnth Hnth' Hnet Hbody.
  destruct (loops_request_pass _ _ _ _ _ _ Hloop Hi Hnth) as (st_i & <- & -> & Hpass).
  pose proof (attempt_capacity _ ins _ _ _ Hnet Hbody) as Hcont.
  destruct Hpass as [st' Hstep Hrest|d st' Hstep _|err st' Hstep _];
    rewrite Hstep in Hcont; inversion Hcont; subst.
  assert (Hnext : S (List.length (sent st_i))
                  = List.length (sent st_i ++ [requestOf ins st_i])).
  { rewrite length_app. simpl. lia. }
  rewrite Hnext in Hnth'.
  now rewrite (loops_next_request _ _ _ _ b' Hrest Hnth').
Qed.

(** ** From [execute] to the loop *)

Lemma execute_inv apiKey net now context run :
  execute apiKey net now context = Some run ->
  run = {| requests := []; outcome := Threw MissingApiKey |}
  \/ exists e,
       loops net (insights context) (initialState context) e
       /\ requests run = sent (endState e)
       /\ outcome run = outcomeOf context now e.
Proof.
  unfold execute. destruct (apiKeyMissing apiKey).
  - intros H. inversion H. now left.
  - destruct (retryLoop _ _ _ _) as [e|] eqn:Hloop; [|discriminate].
    intros H. right. exists e. split; [eapply retryLoop_loops, Hloop|].
    destruct e as [[data|] st|err st]; inversion H; subst; simpl; auto.
Qed.

(** What the part after the loop returns, when it returns. *)
Lemma finish_returned context now data r :
  finish context now data = Returned r ->
  exists places,
    placesOf data = inr places
    /\ r = buildResult context (enhancedFilter context) now data places.
Proof.
  unfold finish. destruct (placesOf data) as [e|places]; [discriminate|].
  intros [= <-]. now exists places.
Qed.

(** A result is returned only from the data of the last response, and only
    when mapping its places array, if it has one, did not throw. *)
Lemma execute_returned apiKey net now context run r :
  execute apiKey net now context = Some run ->
  outcome run = Returned r ->
  exists data places,
    answeredData net run = Some data
    /\ placesOf data = inr places
    /\ r = buildResult context (enhancedFilter context) now data places.
Proof.
  intros Hex Hout.
  destruct (execute_inv _ _ _ _ _ Hex) as [->|(e & Hloop & Hreq & Hout')];
    [discriminate|].
  rewrite Hout in Hout'.
  destruct e as [[data|] st|err st]; try discriminate.
  cbn [outcomeOf] in Hout'. symmetry in Hout'.
  destruct (finish_returned _ _ _ _ Hout') as (places & Hplaces & ->).
  exists data, places. split; [|now split].
  destruct (loops_returned _ _ _ _ _ Hloop) as (init & b & status & text & Hs & Hnet & Hok).
  unfold answeredData. simpl in Hreq. rewrite Hreq, Hs, rev_app_distr, length_app.
  simpl. replace (List.length init + 1 - 1)%nat with (List.length init) by lia.
  now rewrite Hnet, Hok.
Qed.

(** The first request carries the filter merged with the preset. *)
Lemma execute_first_request apiKey net now context run b :
  execute apiKey net now context = Some run ->
  nth_error (requests run) 0 = Some b ->
  b = {| bodyInsights := insights context; bodyFilter := enhancedFilter context |}.
Proof.
  intros Hex Hnth.
  destruct (execute_inv _ _ _ _ _ Hex) as [->|(e & Hloop & Hreq & _)];
    [discriminate|].
  rewrite Hreq in Hnth.
  apply (loops_next_request _ _ _ _ b Hloop Hnth).
Qed.

(** The preset merge touches the type filter only. *)
Lemma enhancedFilter_locationFilter context :
  locationFilter (enhancedFilter context) = locationFilter (filter context).
Proof.
  unfold enhancedFilter.
  destruct (businessContext context) as [bc|]; [|reflexivity].
  destruct (industry bc) as [i|]; [|reflexivity].
  destruct (industryIsCustom i); [reflexivity|].
  now destruct (BUSINESS_INTELLIGENCE_PRESETS i).
Qed.

(** ** Preset merge *)

(** C1, as stated, fails: a user filter with [includedTypes = ["cafe"]] merged
    with the food-service preset does not keep [["cafe"]]; the list of the
    preset replaces it. The same holds for the merge applied to the preset of
    the specification's example, [["restaurant"; "bar"]]. *)
Lemma preset_replaces_user_types :
  nonEmptyList (includedTypes (typeFilter (filter cafeContext))) = true
  /\ includedTypes (typeFilter (enhancedFilter cafeContext))
     = Some ["cafe"; "fast_food_restaurant"; "meal_takeaway"; "bar"]
  /\ includedTypes (typeFilter (enhancedFilter cafeContext))
     <> userListWins (includedTypes (typeFilter (filter cafeContext)))
          (Some ["cafe"; "fast_food_restaurant"; "meal_takeaway"; "bar"])
  /\ includedTypes
       (spreadTypeFilter (typesOnly ["cafe"]) (typesOnly ["restaurant"; "bar"]))
     = Some ["restaurant"; "bar"].
Proof. repeat split; try reflexivity. discriminate. Qed.

(** C1, amended: for every filter and every industry that has a preset, each
    of the four lists of the effective type filter is the preset's list when
    the preset defines that list, and the user's list otherwise; the two are
    never concatenated, and nothing else of the filter changes. In
    particular the merge of a user filter with [includedTypes = ["cafe"]] and
    a preset with [includedTypes = ["restaurant"; "bar"]] has exactly
    [["restaurant"; "bar"]]. *)
Theorem preset_merge_precedence (context : Context) (bc : BusinessContext)
    (i : Industry.t) (p : TypeFilter) :
  businessContext context = Some bc ->
  industry bc = Some i ->
  BUSINESS_INTELLIGENCE_PRESETS i = Some p ->
  let user := typeFilter (filter context) in
  let effective := typeFilter (enhancedFilter context) in
  takenFrom (includedTypes p) (includedTypes user) (includedTypes effective)
  /\ takenFrom (excludedTypes p) (excludedTypes user) (excludedTypes effective)
  /\ takenFrom (includedPrimaryTypes p) (includedPrimaryTypes user)
       (includedPrimaryTypes effective)
  /\ takenFrom (excludedPrimaryTypes p) (excludedPrimaryTypes user)
       (excludedPrimaryTypes effective)
  /\ locationFilter (enhancedFilter context) = locationFilter (filter context)
  /\ operatingStatus (enhancedFilter context) = operatingStatus (filter context)
  /\ priceLevels (enhancedFilter context) = priceLevels (filter context)
  /\ ratingFilter (enhancedFilter context) = ratingFilter (filter context)
  /\ typeFilter (enhancedFilter context) = spreadTypeFilter user p
  /\ includedTypes
       (spreadTypeFilter (typesOnly ["cafe"]) (typesOnly ["restaurant"; "bar"]))
     = Some ["restaurant"; "bar"].
Proof.
  intros Hbc Hind Hpreset user effective. subst user effective.
  unfold enhancedFilter. rewrite Hbc, Hind.
  assert (Hcustom : industryIsCustom i = false)
    by (destruct i; try reflexivity; discriminate).
  rewrite Hcustom, Hpreset. unfold takenFrom. simpl.
  repeat split;
    match goal with
    | |- match ?l with _ => _ end => destruct l; reflexivity
    end.
Qed.

Lemma preset_merge_precedence_witness :
  BUSINESS_INTELLIGENCE_PRESETS Industry.FOOD_SERVICE
  = Some (preset (Some ["restaurant"])
            (Some ["cafe"; "fast_food_restaurant"; "meal_takeaway"; "bar"])
            (Some ["lodging"; "gas_station"]))
  /\ includedTypes (typeFilter (enhancedFilter cafeContext))
     = Some ["cafe"; "fast_food_restaurant"; "meal_takeaway"; "bar"]
  /\ excludedPrimaryTypes (typeFilter (enhancedFilter cafeContext)) = None.
Proof.
  split; [reflexivity|].
  pose proof (preset_merge_precedence cafeContext
                (industryContext Industry.FOOD_SERVICE) Industry.FOOD_SERVICE _
                eq_refl eq_refl eq_refl) as (Hincl & _ & _ & Hexcl & _).
  split; [exact Hincl | exact Hexcl].
Defined.

(** ** Classification *)

Lemma js_lt_true (r x : R) : (r < x)%R -> js_lt (RFin r) x = true.
Proof. intros H. unfold js_lt. now destruct (Rlt_dec r x). Qed.

Lemma js_lt_false (r x : R) : (x <= r)%R -> js_lt (RFin r) x = false.
Proof. intros H. unfold js_lt. destruct (Rlt_dec r x); [lra | reflexivity]. Qed.

(** The tier of a finite density, band by band. *)
Lemma densityStage_bands (d : R) :
  ((d < 1)%R -> fst (densityStage (RFin d)) = LOW)
  /\ ((1 <= d < 5)%R -> fst (densityStage (RFin d)) = MODERATE)
  /\ ((5 <= d < 15)%R -> fst (densityStage (RFin d)) = HIGH)
  /\ ((15 <= d)%R -> fst (densityStage (RFin d)) = SATURATED).
Proof.
  unfold densityStage. repeat split; intros H.
  - now rewrite js_lt_true.
  - rewrite js_lt_false, js_lt_true by lra. reflexivity.
  - rewrite !js_lt_false, js_lt_true by lra. reflexivity.
  - rewrite !js_lt_false by lra. reflexivity.
Qed.

Lemma radius_in_schema_positive (radius : Q) :
  radiusInSchema radius -> Qeq_bool radius 0 = false /\ (1 <= Q2R radius)%R.
Proof.
  intros [Hlo _]. split.
  - destruct (Qeq_bool radius 0) eqn:Heq; [|reflexivity].
    apply Qeq_bool_iff in Heq. rewrite Heq in Hlo.
    revert Hlo. unfold Qle. simpl. lia.
  - apply Qle_Rle in Hlo. replace (Q2R 1) with 1%R in Hlo; [assumption|].
    unfold Q2R. simpl. lra.
Qed.

Lemma kilometre_disc : (PI * (Q2R 1000 / 1000) ^ 2 = PI)%R.
Proof. unfold Q2R. simpl. field. Qed.

(** *** Empty lists *)

Lemma orUndefined_spec {A : Type} (l : list A) :
  (orUndefined l = None <-> l = [])
  /\ (forall l', orUndefined l = Some l' -> l' = l /\ l' <> []).
Proof.
  destruct l as [|x l]; simpl; split.
  - tauto.
  - discriminate.
  - split; discriminate.
  - intros l' H. inversion H. split; [reflexivity | discriminate].
Qed.

Lemma snoc_not_nil {A : Type} (l : list A) (x : A) : l ++ [x] <> [].
Proof. destruct l; discriminate. Qed.

Lemma densityStage_recommends (d : JsReal) :
  notedRecommendations (snd (densityStage d)) <> [].
Proof.
  unfold densityStage.
  destruct (js_lt d 1); [|destruct (js_lt d 5); [|destruct (js_lt d 15)]];
    discriminate.
Qed.

Lemma industryStage_keeps_recommendations bc level n :
  notedRecommendations n <> [] ->
  notedRecommendations (industryStage bc level n) <> [].
Proof.
  intros Hn. unfold industryStage.
  destruct bc as [[[i|] ? ? ? ?]|]; try assumption.
  destruct i; simpl; try assumption;
    try (destruct (levelIs level _); simpl; try assumption);
    apply snoc_not_nil.
Qed.

Lemma analysisStage_keeps_recommendations a count radius d level n :
  notedRecommendations n <> [] ->
  notedRecommendations (analysisStage a count radius d level n) <> [].
Proof.
  intros Hn. unfold analysisStage.
  destruct a; simpl; try assumption.
  - apply snoc_not_nil.
  - destruct (js_int_gt count 10); simpl; apply snoc_not_nil.
  - destruct (levelIs level LOW); [apply snoc_not_nil|].
    destruct (levelIs level SATURATED); [apply snoc_not_nil | assumption].
Qed.

Lemma zero_density_is_low : (IZR 0 / (PI * (Q2R 1000 / 1000) ^ 2) < 1)%R.
Proof. rewrite kilometre_disc. unfold Rdiv. rewrite Rmult_0_l. lra. Qed.

(** C9, as stated, fails: with no business in a kilometre and no business
    context, the lists of risks and of insights end up empty, and the result
    has no [riskFactors] and no [strategicInsights] key, where the claim has
    two empty lists. *)
Lemma empty_lists_are_undefined :
  let bi := generateBusinessIntelligence (Fin 0) 1000 MARKET_DENSITY None in
  notedRiskFactors (collectedNotes (Fin 0) 1000 MARKET_DENSITY None) = []
  /\ riskFactors bi = None
  /\ riskFactors bi <> Some []
  /\ notedStrategicInsights (collectedNotes (Fin 0) 1000 MARKET_DENSITY None) = []
  /\ strategicInsights bi = None
  /\ strategicInsights bi <> Some [].
Proof.
  cbv zeta. unfold generateBusinessIntelligence, collectedNotes.
  cbn [riskFactors strategicInsights].
  change (density (Fin 0) 1000)
    with (RFin (IZR 0 / (PI * (Q2R 1000 / 1000) ^ 2))).
  unfold densityStage. rewrite (js_lt_true _ _ zero_density_is_low).
  cbn. repeat split; discriminate.
Qed.

(** C9, amended: for every classification result, [recommendations] is
    present and never empty; each of [riskFactors], [opportunities] and
    [strategicInsights] is left out of the result exactly when the list built
    for it is empty, and holds that list otherwise, so none of the three is
    ever present and empty. *)
Theorem empty_lists_omitted (count : JsInt) (radius : Q) (a : AnalysisType)
    (bc : option BusinessContext) :
  let bi := generateBusinessIntelligence count radius a bc in
  let n := collectedNotes count radius a bc in
  recommendations bi = notedRecommendations n
  /\ recommendations bi <> []
  /\ (riskFactors bi = None <-> notedRiskFactors n = [])
  /\ (forall l, riskFactors bi = Some l -> l = notedRiskFactors n /\ l <> [])
  /\ (opportunities bi = None <-> notedOpportunities n = [])
  /\ (forall l, opportunities bi = Some l -> l = notedOpportunities n /\ l <> [])
  /\ (strategicInsights bi = None <-> notedStrategicInsights n = [])
  /\ (forall l, strategicInsights bi = Some l ->
                l = notedStrategicInsights n /\ l <> []).
Proof.
  cbv zeta. unfold generateBusinessIntelligence.
  cbn [recommendations riskFactors opportunities strategicInsights].
  split; [reflexivity|]. split.
  - unfold collectedNotes.
    pose proof (densityStage_recommends (density count radius)) as Hd.
    destruct (densityStage (density count radius)) as [level n].
    now apply analysisStage_keeps_recommendations,
      industryStage_keeps_recommendations.
  - set (n := collectedNotes count radius a bc).
    destruct (orUndefined_spec (notedRiskFactors n)) as [R1 R2].
    destruct (orUndefined_spec (notedOpportunities n)) as [O1 O2].
    destruct (orUndefined_spec (notedStrategicInsights n)) as [S1 S2].
    repeat (split; [assumption|]). assumption.
Qed.

(** ** The retry loop: radius *)

(** C2, evaluated where the code breaks it: with a radius of 100 and a
    service that always answers that the capacity is exceeded, the second
    request is sent with a radius of 25 and the third with a radius of 6,
    both under 50; no request is sent with 50. Three requests are sent and
    [execute] throws. *)
Lemma radius_goes_under_the_floor :
  option_map requestRadii
    (execute (Some "key") alwaysCapacity "now" fastFoodContext)
  = Some [Some 100; Some (inject_Z 25); Some (inject_Z 6)]
  /\ option_map outcome
       (execute (Some "key") alwaysCapacity "now" fastFoodContext)
     = Some (Threw NoData).
Proof. split; reflexivity. Qed.

(** Each capacity response is followed by a request whose radius is
    [floor (currentRadius * 0.25)], where [currentRadius] is the radius just
    tried, or 1000 when there was none or it was zero. *)
Theorem capacity_retry_quarters_radius apiKey net now context run i b b' body json :
  execute apiKey net now context = Some run ->
  nth_error (requests run) i = Some b ->
  nth_error (requests run) (S i) = Some b' ->
  net i b = Responded 429 body json ->
  includes capacityPhrase body = true ->
  option_map radius (circle (locationFilter (bodyFilter b')))
  = Some (inject_Z (Qfloor (radiusOr1000 (bodyFilter b) * (1 # 4)))).
Proof.
  intros Hex Hb Hb' Hnet Hbody.
  destruct (execute_inv _ _ _ _ _ Hex) as [->|(e & Hloop & Hreq & _)].
  - destruct i; discriminate.
  - rewrite Hreq in Hb, Hb'.
    rewrite (loops_capacity_step _ _ _ _ i b b' body json Hloop
               (Nat.le_0_l i) Hb Hb' Hnet Hbody).
    now rewrite reduceRadius_withRadius.
Qed.

Lemma execute_fastFoodRun :
  execute (Some "key") alwaysCapacity "now" fastFoodContext = Some fastFoodRun.
Proof. reflexivity. Qed.

Lemma capacity_retry_quarters_radius_witness :
  execute (Some "key") alwaysCapacity "now" fastFoodContext = Some fastFoodRun
  /\ Some (inject_Z 25) = Some (inject_Z (Qfloor (100 * (1 # 4)))).
Proof.
  split; [exact execute_fastFoodRun|].
  exact (capacity_retry_quarters_radius (Some "key") alwaysCapacity "now"
           fastFoodContext fastFoodRun 0 _ _ _ _
           execute_fastFoodRun eq_refl eq_refl eq_refl eq_refl).
Defined.

(** [execute] never sends more than three requests. *)
Theorem at_most_three_requests apiKey net now context run :
  execute apiKey net now context = Some run ->
  (List.length (requests run) <= 3)%nat.
Proof.
  intros Hex.
  destruct (execute_inv _ _ _ _ _ Hex) as [->|(e & Hloop & Hreq & _)].
  - simpl. lia.
  - rewrite Hreq.
    apply (loops_bound _ _ _ _ Hloop); simpl; unfold maxAttempts; lia.
Qed.

Lemma at_most_three_requests_witness :
  execute (Some "key") alwaysCapacity "now" fastFoodContext = Some fastFoodRun
  /\ (List.length (requests fastFoodRun) <= 3)%nat.
Proof.
  split; [exact execute_fastFoodRun|].
  exact (at_most_three_requests (Some "key") alwaysCapacity "now"
           fastFoodContext fastFoodRun execute_fastFoodRun).
Defined.

(** ** The retry loop: filter repair *)

(** C3, evaluated where the code breaks it: with a radius of 100 the first
    capacity response brings the new radius to 25, under the floor; the
    repaired filter would have [fast_food_restaurant] and no [pharmacy], but
    the requests that follow still carry [fast_food] and [pharmacy]. *)
Lemma repaired_filter_is_not_sent :
  (newRadiusOf (enhancedFilter repairContext) <? 50)%Z = true
  /\ correctedPreset repairableTypes
     = {| includedTypes := Some ["fast_food_restaurant"; "cafe"];
          excludedTypes := None;
          includedPrimaryTypes := Some ["restaurant"];
          excludedPrimaryTypes := None |}
  /\ option_map requestTypeFilters
       (execute (Some "key") alwaysCapacity "now" repairContext)
     = Some [repairableTypes; repairableTypes; repairableTypes]
  /\ option_map requestRadii
       (execute (Some "key") alwaysCapacity "now" repairContext)
     = Some [Some 100; Some (inject_Z 25); Some (inject_Z 6)].
Proof. repeat split; reflexivity. Qed.

(** Every request of a run carries the type filter that came out of the
    preset merge: no retry changes it. *)
Theorem type_filter_never_changes apiKey net now context run :
  execute apiKey net now context = Some run ->
  Forall (fun b => typeFilter (bodyFilter b) = typeFilter (enhancedFilter context))
    (requests run).
Proof.
  intros Hex.
  destruct (execute_inv _ _ _ _ _ Hex) as [->|(e & Hloop & Hreq & _)].
  - constructor.
  - rewrite Hreq.
    apply (loops_typeFilter _ _ _ _ _ Hloop); [reflexivity | constructor].
Qed.

Lemma type_filter_never_changes_witness :
  execute (Some "key") alwaysCapacity "now" fastFoodContext = Some fastFoodRun
  /\ Forall (fun b => typeFilter (bodyFilter b) = typesOnly ["fast_food"])
       (requests fastFoodRun).
Proof.
  split; [exact execute_fastFoodRun|].
  exact (type_filter_never_changes (Some "key") alwaysCapacity "now"
           fastFoodContext fastFoodRun execute_fastFoodRun).
Defined.

(** ** The result: metadata *)

Lemma execute_shrinkRun :
  execute (Some "key") (capacityThen 1 (countOnly "5")) "now" shrinkContext
  = Some shrinkRun.
Proof. reflexivity. Qed.

(** C4, as stated, fails: after one capacity retry the last request was sent
    with a radius of 250, and the result still reports the radius of 1000 and
    the filter first asked for, and classifies with 1000. *)
Lemma metadata_keeps_requested_radius :
  exists r,
    execute (Some "key") (capacityThen 1 (countOnly "5")) "now" shrinkContext
    = Some shrinkRun
    /\ outcome shrinkRun = Returned r
    /\ requestRadii shrinkRun = [Some 1000; Some (inject_Z 250)]
    /\ searchRadius (metadata r) = Some 1000
    /\ searchRadius (metadata r) <> Some (inject_Z 250)
    /\ filterCriteria (metadata r) = sampleFilter 1000 (typesOnly ["cafe"])
    /\ businessIntelligence r
       = Some (generateBusinessIntelligence (Fin 5) 1000 MARKET_DENSITY None).
Proof.
  eexists. split; [exact execute_shrinkRun|].
  split; [reflexivity|].
  repeat split; try reflexivity. discriminate.
Qed.

(** C4, amended: for every invocation that returns a result,
    [metadata.filterCriteria] is the filter of the first request (the
    requested filter merged with the preset), whatever the retries shrank;
    its location is the one requested, and when classification runs,
    [metadata.searchRadius] is the requested radius and the classification is
    computed with the requested radius (1000 when there is none). *)
Theorem metadata_reports_requested_filter apiKey net now context run r :
  execute apiKey net now context = Some run ->
  outcome run = Returned r ->
  filterCriteria (metadata r) = enhancedFilter context
  /\ (exists first rest,
        requests run = first :: rest
        /\ bodyFilter first = filterCriteria (metadata r))
  /\ locationFilter (filterCriteria (metadata r)) = locationFilter (filter context)
  /\ (forall a, analysisToRun context = Some a ->
        searchRadius (metadata r) = truthyRadius (filter context)
        /\ exists data,
             answeredData net run = Some data
             /\ businessIntelligence r
                = Some (generateBusinessIntelligence (parsedCount data)
                          (radiusOr1000 (filter context)) a
                          (businessContext context))).
Proof.
  intros Hex Hout.
  destruct (execute_returned _ _ _ _ _ _ Hex Hout)
    as (data & places & Hdata & _ & ->).
  cbn [buildResult metadata filterCriteria searchRadius businessIntelligence].
  split; [reflexivity|]. split.
  - destruct (requests run) as [|first rest] eqn:Hreq.
    + unfold answeredData in Hdata. rewrite Hreq in Hdata. discriminate.
    + exists first, rest. split; [reflexivity|].
      assert (Hfirst : nth_error (requests run) 0 = Some first) by now rewrite Hreq.
      now rewrite (execute_first_request _ _ _ _ _ _ Hex Hfirst).
  - split; [apply enhancedFilter_locationFilter|].
    intros a Ha. rewrite Ha.
    unfold truthyRadius, radiusOr1000.
    rewrite enhancedFilter_locationFilter.
    split; [reflexivity|]. now exists data.
Qed.

Lemma metadata_reports_requested_filter_witness :
  execute (Some "key") (capacityThen 1 (countOnly "5")) "now" shrinkContext
  = Some shrinkRun
  /\ filterCriteria
       (metadata (buildResult shrinkContext (enhancedFilter shrinkContext) "now"
                    (countOnly "5") None))
     = enhancedFilter shrinkContext.
Proof.
  split; [exact execute_shrinkRun|].
  exact (proj1 (metadata_reports_requested_filter (Some "key")
                  (capacityThen 1 (countOnly "5")) "now" shrinkContext shrinkRun
                  _ execute_shrinkRun eq_refl)).
Defined.

(** ** The result: count, places and classification *)

(** When the last response is [ok] and carries data, [execute] ends as the
    part after the loop does on that data. *)
Lemma execute_answered apiKey net now context run data :
  execute apiKey net now context = Some run ->
  answeredData net run = Some data ->
  outcome run = finish context now data.
Proof.
  intros Hex Hdata. unfold answeredData in Hdata.
  destruct (rev (requests run)) as [|b tl] eqn:Hrev; [discriminate|].
  destruct (net _ b) as [m|status text [m|d]] eqn:Hnet; try discriminate.
  destruct (ok status) eqn:Hok; [|discriminate]. subst d.
  assert (Hreq : requests run = rev tl ++ [b]).
  { rewrite <- (rev_involutive (requests run)), Hrev. reflexivity. }
  assert (Hlen : (List.length (requests run) - 1 = List.length (rev tl))%nat).
  { rewrite Hreq, length_app. simpl. lia. }
  rewrite Hlen in Hnet.
  destruct (execute_inv _ _ _ _ _ Hex) as [Hrun|(e & Hloop & Hsent & Hout)].
  - rewrite Hrun in Hreq. destruct (rev tl); discriminate.
  - assert (Hnth : nth_error (sent (endState e)) (List.length (rev tl)) = Some b).
    { rewrite <- Hsent, Hreq, nth_error_app2, Nat.sub_diag by lia. reflexivity. }
    destruct (loops_ok_response _ _ _ _ _ _ _ _ _ Hloop (Nat.le_0_l _) Hnth Hnet Hok)
      as [st' ->].
    exact Hout.
Qed.

Lemma execute_noCountRun :
  execute (Some "key") (capacityThen 0 noCount) "now" shrinkContext
  = Some noCountRun.
Proof. reflexivity. Qed.

(** C5, as stated, fails: a response without a count leaves the result
    without a count, and the market-density analysis is still run, on a
    count of 0. *)
Lemma missing_count_is_classified :
  exists r,
    execute (Some "key") (capacityThen 0 noCount) "now" shrinkContext
    = Some noCountRun
    /\ outcome noCountRun = Returned r
    /\ answeredData (capacityThen 0 noCount) noCountRun = Some noCount
    /\ count noCount = None
    /\ resultCount r = None
    /\ businessIntelligence r
       = Some (generateBusinessIntelligence (Fin 0) 1000 MARKET_DENSITY None)
    /\ businessIntelligence r <> None.
Proof.
  eexists. split; [exact execute_noCountRun|].
  split; [reflexivity|].
  repeat split; try reflexivity. discriminate.
Qed.

(** C5, amended: for every response in which the count field is absent and
    from which a result is returned, the result has no count; classification
    is still run whenever the analysis type is set and is not CUSTOM, with a
    count of 0 in place of the missing one, and the result has no
    [businessIntelligence] only when the analysis type is CUSTOM or unset. A
    result is returned from such a response unless mapping its places array
    throws. *)
Theorem missing_count_classified_as_zero apiKey net now context run data :
  execute apiKey net now context = Some run ->
  answeredData net run = Some data ->
  count data = None ->
  (forall places, placesOf data = inr places -> exists r, outcome run = Returned r)
  /\ (forall r,
        outcome run = Returned r ->
        resultCount r = None
        /\ businessIntelligence r
           = match analysisToRun context with
             | Some a =>
                 Some (generateBusinessIntelligence (Fin 0)
                         (radiusOr1000 (filter context)) a
                         (businessContext context))
             | None => None
             end
        /\ (businessIntelligence r = None <-> analysisToRun context = None)).
Proof.
  intros Hex Hdata Hcount.
  pose proof (execute_answered _ _ _ _ _ _ Hex Hdata) as Hend.
  split.
  - intros places Hplaces. unfold finish in Hend. rewrite Hplaces in Hend.
    eexists. exact Hend.
  - intros r Hout. rewrite Hout in Hend. symmetry in Hend.
    destruct (finish_returned _ _ _ _ Hend) as (places & _ & ->).
    cbn [buildResult resultCount businessIntelligence].
    split; [exact Hcount|].
    assert (Hparsed : parsedCount data = Fin 0).
    { unfold parsedCount. now rewrite Hcount. }
    assert (Hradius : radiusOr1000 (enhancedFilter context)
                      = radiusOr1000 (filter context)).
    { unfold radiusOr1000. now rewrite enhancedFilter_locationFilter. }
    rewrite Hparsed, Hradius.
    split; [reflexivity|].
    destruct (analysisToRun context); split; congruence.
Qed.

Lemma missing_count_classified_as_zero_witness :
  execute (Some "key") (capacityThen 0 noCount) "now" shrinkContext
  = Some noCountRun
  /\ (exists r, outcome noCountRun = Returned r)
  /\ forall r,
       outcome noCountRun = Returned r ->
       resultCount r = None
       /\ businessIntelligence r
          = Some (generateBusinessIntelligence (Fin 0) 1000 MARKET_DENSITY None)
       /\ (businessIntelligence r = None <-> Some MARKET_DENSITY = None).
Proof.
  split; [exact execute_noCountRun|].
  pose proof (missing_count_classified_as_zero (Some "key")
                (capacityThen 0 noCount) "now" shrinkContext noCountRun noCount
                execute_noCountRun eq_refl eq_refl) as [Hreturns Hresult].
  split; [exact (Hreturns None eq_refl) | exact Hresult].
Defined.

(** *** Places *)

Lemma execute_threePlacesRun :
  execute (Some "key") (capacityThen 0 threePlaces) "now" placesContext
  = Some threePlacesRun.
Proof. reflexivity. Qed.

Lemma execute_nullPlacesRun :
  execute (Some "key") (capacityThen 0 nullPlaces) "now" placesContext
  = Some nullPlacesRun.
Proof. reflexivity. Qed.

(** C8, evaluated where the code breaks it. An entry without an identifier
    is not dropped: it stays in the returned list, at its place, as
    [undefined], and the list is then not one that the tool's own
    [outputSchema] admits. An entry that is [null] makes the whole parse
    fail: the TypeError of reading its [place] leaves [execute]. *)
Lemma missing_identifier_is_kept :
  (exists r,
     execute (Some "key") (capacityThen 0 threePlaces) "now" placesContext
     = Some threePlacesRun
     /\ outcome threePlacesRun = Returned r
     /\ identifiersPresent threeEntries = ["places/a"; "places/b"]
     /\ resultPlaces r = Some [Some "places/a"; None; Some "places/b"]
     /\ resultPlaces r <> Some (map Some (identifiersPresent threeEntries))
     /\ outputSchemaPlaces (resultPlaces r) = false
     /\ outputSchemaPlaces (Some (map Some (identifiersPresent threeEntries)))
        = true)
  /\ execute (Some "key") (capacityThen 0 nullPlaces) "now" placesContext
     = Some nullPlacesRun
  /\ outcome nullPlacesRun = Threw PlaceOfNull
  /\ identifiersPresent nullEntries = ["places/a"; "places/b"].
Proof.
  split.
  - eexists. split; [exact execute_threePlacesRun|].
    split; [reflexivity|].
    repeat split; try reflexivity. discriminate.
  - split; [exact execute_nullPlacesRun|]. split; reflexivity.
Qed.

(** *** Analysis type CUSTOM *)

Lemma execute_customRun :
  execute (Some "key") (capacityThen 0 threePlaces) "now" customContext
  = Some customRun.
Proof. reflexivity. Qed.

(** C10: for every invocation with [analysisType = 'CUSTOM'] that returns,
    the result has no [businessIntelligence] and no [metadata.searchRadius],
    whatever the service answered; a result has a [businessIntelligence]
    exactly when the analysis type is set and is not CUSTOM. *)
Theorem custom_analysis_is_not_classified apiKey net now context run r :
  execute apiKey net now context = Some run ->
  outcome run = Returned r ->
  (analysisType context = Some CUSTOM ->
     businessIntelligence r = None /\ searchRadius (metadata r) = None)
  /\ (businessIntelligence r <> None <->
        exists a, analysisType context = Some a /\ a <> CUSTOM).
Proof.
  intros Hex Hout.
  destruct (execute_returned _ _ _ _ _ _ Hex Hout)
    as (data & places & _ & _ & ->).
  cbn [buildResult businessIntelligence metadata searchRadius].
  unfold analysisToRun. split.
  - intros ->. split; reflexivity.
  - destruct (analysisType context) as [[]|]; split;
      try (intros _; eexists; split; [reflexivity | discriminate]);
      try discriminate;
      try (intros H; exfalso; now apply H);
      try (intros (a & Ha & Hne); congruence).
Qed.

Lemma custom_analysis_is_not_classified_witness :
  execute (Some "key") (capacityThen 0 threePlaces) "now" customContext
  = Some customRun
  /\ businessIntelligence
       (buildResult customContext (enhancedFilter customContext) "now" threePlaces
          (Some threeIdentifiers))
     = None
  /\ searchRadius
       (metadata
          (buildResult customContext (enhancedFilter customContext) "now"
             threePlaces (Some threeIdentifiers)))
     = None.
Proof.
  split; [exact execute_customRun|].
  exact (proj1 (custom_analysis_is_not_classified (Some "key")
                  (capacityThen 0 threePlaces) "now" customContext customRun _
                  execute_customRun eq_refl)
           eq_refl).
Defined.

(** ** The retry loop: other errors *)

Lemma execute_plainServerErrorRun :
  execute (Some "key") plainServerError "now" fastFoodContext
  = Some plainServerErrorRun.
Proof. reflexivity. Qed.

(** C7, as stated, fails: a 500 is not the capacity signature, whatever its
    body; when the body contains the phrase, the [catch] block counts an
    attempt and the same request is sent again, three times in all. *)
Lemma server_error_with_phrase_is_retried :
  ok 500 = false
  /\ (500 =? 429)%nat
     && includes capacityPhrase
          "Internal error while checking the maximum number of allowed places"
     = false
  /\ execute (Some "key") alwaysServerError "now" fastFoodContext
     = Some serverErrorRun
  /\ List.length (requests serverErrorRun) = 3%nat.
Proof. repeat split; reflexivity. Qed.

(** C7, amended: for every error response whose body does not contain the
    cap-exceeded phrase, whatever its status (a 500, or a 429 without the
    phrase), the executor aborts after that attempt with the error of the
    request and sends nothing more. *)
Theorem error_without_phrase_is_fatal apiKey net now context run i b status body json :
  execute apiKey net now context = Some run ->
  nth_error (requests run) i = Some b ->
  net i b = Responded status body json ->
  ok status = false ->
  includes capacityPhrase body = false ->
  outcome run = Threw (RequestFailed status body)
  /\ List.length (requests run) = S i.
Proof.
  intros Hex Hnth Hnet Hok Hbody.
  destruct (execute_inv _ _ _ _ _ Hex) as [->|(e & Hloop & Hreq & Hout)].
  - destruct i; discriminate.
  - rewrite Hreq in Hnth |- *.
    destruct (loops_fatal _ _ _ _ i b status body json Hloop
                (Nat.le_0_l i) Hnth Hnet Hok Hbody) as [Hlen [st' ->]].
    split; [exact Hout | exact Hlen].
Qed.

Lemma error_without_phrase_is_fatal_witness :
  execute (Some "key") plainServerError "now" fastFoodContext
  = Some plainServerErrorRun
  /\ outcome plainServerErrorRun
     = Threw (RequestFailed 500 "Internal Server Error")
  /\ List.length (requests plainServerErrorRun) = 1%nat.
Proof.
  split; [exact execute_plainServerErrorRun|].
  exact (error_without_phrase_is_fatal (Some "key") plainServerError "now"
           fastFoodContext plainServerErrorRun 0 _ 500 "Internal Server Error" _
           execute_plainServerErrorRun eq_refl eq_refl eq_refl eq_refl).
Defined.

(** * Further properties *)

(** ** Classification: order, thresholds and edge cases *)

Lemma densityStage_monotone (d1 d2 : R) :
  (d1 <= d2)%R ->
  (levelRank (fst (densityStage (RFin d1)))
   <= levelRank (fst (densityStage (RFin d2))))%nat.
Proof.
  intros Hle. unfold densityStage, js_lt.
  destruct (Rlt_dec d1 1), (Rlt_dec d1 5), (Rlt_dec d1 15),
    (Rlt_dec d2 1), (Rlt_dec d2 5), (Rlt_dec d2 15);
    simpl; try lia; lra.
Qed.

Lemma disc_area_positive (r : Q) :
  Qeq_bool r 0 = false -> (0 < PI * (Q2R r / 1000) ^ 2)%R.
Proof.
  intros Hr. apply Qeq_bool_neq in Hr.
  assert (Hnz : Q2R r <> 0%R).
  { intros H. apply Hr. apply eqR_Qeq. rewrite H. unfold Q2R. simpl. lra. }
  apply Rmult_lt_0_compat; [apply PI_RGT_0|].
  assert (Hq : (Q2R r / 1000 <> 0)%R).
  { intros H. apply Hnz. lra. }
  pose proof (pow2_ge_0 (Q2R r / 1000)) as Hge.
  pose proof (pow_nonzero _ 2 Hq) as Hne. lra.
Qed.

(** For a fixed radius a larger count never gives a lower tier. *)
Theorem tier_monotone_in_count (n m : Z) (r : Q) (a a' : AnalysisType)
    (bc bc' : option BusinessContext) :
  (n <= m)%Z ->
  (levelRank (competitionLevel (generateBusinessIntelligence (Fin n) r a bc))
   <= levelRank
        (competitionLevel (generateBusinessIntelligence (Fin m) r a' bc')))%nat.
Proof.
  intros Hnm. unfold generateBusinessIntelligence. cbn [competitionLevel].
  unfold density. destruct (Qeq_bool r 0) eqn:Hr.
  - destruct (n =? 0)%Z eqn:Hn0, (m =? 0)%Z eqn:Hm0;
      destruct (n <? 0)%Z eqn:Hn, (m <? 0)%Z eqn:Hm; simpl; try lia.
  - apply densityStage_monotone.
    pose proof (disc_area_positive r Hr) as Hpos.
    apply Rmult_le_compat_r.
    + apply Rlt_le, Rinv_0_lt_compat, Hpos.
    + now apply IZR_le.
Qed.

Lemma tier_monotone_in_count_witness :
  (5 <= 20)%Z
  /\ (levelRank
        (competitionLevel
           (generateBusinessIntelligence (Fin 5) 1000 MARKET_DENSITY None))
      <= levelRank
           (competitionLevel
              (generateBusinessIntelligence (Fin 20) 1000 COMPETITOR_ANALYSIS
                 None)))%nat.
Proof.
  assert (H : (5 <= 20)%Z) by discriminate.
  split; [exact H|].
  exact (tier_monotone_in_count 5 20 1000 MARKET_DENSITY COMPETITOR_ANALYSIS
           None None H).
Defined.

Lemma pi_between : (47 / 15 < PI < 16 / 5)%R.
Proof.
  split.
  - pose proof (PI_2_3_7_ineq 0) as [H _].
    unfold sum_f_R0, tg_alt, PI_2_3_7_tg, Ratan_seq in H. simpl in H. lra.
  - pose proof (PI_2_3_7_ineq 1) as [_ H].
    unfold sum_f_R0, tg_alt, PI_2_3_7_tg, Ratan_seq in H. simpl in H. lra.
Qed.

(** At a radius of 1000 metres, which is also the radius assumed for a filter
    without a circle, the tier is LOW up to 3 businesses, MODERATE from 4 to
    15, HIGH from 16 to 47 and SATURATED from 48 on. *)
Theorem tiers_at_one_kilometre (n : Z) (a : AnalysisType)
    (bc : option BusinessContext) :
  competitionLevel (generateBusinessIntelligence (Fin n) 1000 a bc)
  = tierAtOneKilometre n
  /\ (forall f, circle (locationFilter f) = None -> radiusOr1000 f = 1000%Q).
Proof.
  split.
  - unfold generateBusinessIntelligence. cbn [competitionLevel].
    change (density (Fin n) 1000)
      with (RFin (IZR n / (PI * (Q2R 1000 / 1000) ^ 2))).
    rewrite kilometre_disc.
    pose proof pi_between as [Hlo Hhi]. pose proof PI_RGT_0 as Hpos.
    destruct (densityStage_bands (IZR n / PI)) as (H1 & H2 & H3 & H4).
    assert (Hdiv : forall k : R, (IZR n / PI < k <-> IZR n < k * PI)%R).
    { intros k. split; intros H.
      - apply (Rmult_lt_reg_r (/ PI)); [now apply Rinv_0_lt_compat|].
        rewrite Rmult_assoc, Rinv_r, Rmult_1_r by lra. exact H.
      - unfold Rdiv. apply (Rmult_lt_reg_r PI); [assumption|].
        rewrite Rmult_assoc, Rinv_l, Rmult_1_r by lra. exact H. }
    unfold tierAtOneKilometre.
    destruct (n <=? 3)%Z eqn:E3; [|destruct (n <=? 15)%Z eqn:E15;
                                    [|destruct (n <=? 47)%Z eqn:E47]].
    + apply H1, Hdiv. apply Z.leb_le, IZR_le in E3. lra.
    + apply Z.leb_gt in E3. apply Z.leb_le, IZR_le in E15.
      assert (E3' : (4 <= n)%Z) by lia. apply IZR_le in E3'.
      apply H2. split; [apply Rnot_lt_le; rewrite Hdiv | apply Hdiv]; lra.
    + apply Z.leb_gt in E15. apply Z.leb_le, IZR_le in E47.
      assert (E15' : (16 <= n)%Z) by lia. apply IZR_le in E15'.
      apply H3. split; [apply Rnot_lt_le; rewrite Hdiv | apply Hdiv]; lra.
    + apply Z.leb_gt in E47.
      assert (E47' : (48 <= n)%Z) by lia. apply IZR_le in E47'.
      apply H4. apply Rnot_lt_le. rewrite Hdiv. lra.
  - intros f Hc. unfold radiusOr1000. now rewrite Hc.
Qed.

(** A count that [parseInt] cannot read makes every comparison of the density
    false: the tier is SATURATED, with the risks of a saturated market. *)
Theorem unreadable_count_is_saturated (data : ApiData) (r : Q)
    (a : AnalysisType) (bc : option BusinessContext) :
  parsedCount data = NaN ->
  let bi := generateBusinessIntelligence (parsedCount data) r a bc in
  competitionLevel bi = SATURATED
  /\ exists risks,
       riskFactors bi = Some risks
       /\ In (str "Market saturation may limit growth potential") risks.
Proof.
  intros Hnan. cbv zeta. rewrite Hnan. split; [reflexivity|].
  unfold generateBusinessIntelligence, collectedNotes.
  cbn [riskFactors density densityStage js_lt fst].
  destruct bc as [[[i|] ? ? ? ?]|]; [destruct i| |];
    destruct a; cbn; eexists; (split; [reflexivity|]); cbn; auto.
Qed.

Lemma unreadable_count_is_saturated_witness :
  parsedCount {| count := Some (CountStr "unknown"); placeInsights := None |}
  = NaN
  /\ competitionLevel
       (generateBusinessIntelligence
          (parsedCount
             {| count := Some (CountStr "unknown"); placeInsights := None |})
          1000 MARKET_DENSITY None)
     = SATURATED.
Proof.
  split; [reflexivity|].
  exact (proj1 (unreadable_count_is_saturated
                  {| count := Some (CountStr "unknown"); placeInsights := None |}
                  1000 MARKET_DENSITY None eq_refl)).
Defined.

(** *** What is appended to the lists of the tier *)

Lemma extends_refl {A : Type} (l : list A) : extends l l.
Proof. exists []. now rewrite app_nil_r. Qed.

Lemma extends_snoc {A : Type} (l l' : list A) (x : A) :
  extends l l' -> extends l (l' ++ [x]).
Proof. intros [added ->]. exists (added ++ [x]). now rewrite app_assoc. Qed.

Lemma extends_trans {A : Type} (l1 l2 l3 : list A) :
  extends l1 l2 -> extends l2 l3 -> extends l1 l3.
Proof.
  intros [a ->] [b ->]. exists (a ++ b). now rewrite app_assoc.
Qed.

Lemma notesExtend_refl n : notesExtend n n.
Proof. repeat split; apply extends_refl. Qed.

Lemma notesExtend_trans n1 n2 n3 :
  notesExtend n1 n2 -> notesExtend n2 n3 -> notesExtend n1 n3.
Proof.
  intros (A1 & A2 & A3 & A4) (B1 & B2 & B3 & B4).
  repeat split; eapply extends_trans; eassumption.
Qed.

Lemma push_extends t n n' :
  notesExtend n n' ->
  notesExtend n (pushRecommendation t n')
  /\ notesExtend n (pushRiskFactor t n')
  /\ notesExtend n (pushOpportunity t n')
  /\ notesExtend n (pushStrategicInsight t n').
Proof.
  intros (H1 & H2 & H3 & H4).
  repeat split; simpl; auto using extends_snoc.
Qed.

Create HintDb notes.

#[local] Hint Resolve notesExtend_refl : notes.
#[local] Hint Extern 1 (notesExtend _ (pushRecommendation _ _)) =>
  apply push_extends : notes.
#[local] Hint Extern 1 (notesExtend _ (pushRiskFactor _ _)) =>
  apply push_extends : notes.
#[local] Hint Extern 1 (notesExtend _ (pushOpportunity _ _)) =>
  apply push_extends : notes.
#[local] Hint Extern 1 (notesExtend _ (pushStrategicInsight _ _)) =>
  apply push_extends : notes.

Lemma industryStage_extends bc level n :
  notesExtend n (industryStage bc level n).
Proof.
  unfold industryStage.
  destruct bc as [[[i|] ? ? ? ?]|]; cbn [industry]; auto with notes.
  destruct i; cbv zeta; try destruct (levelIs level _); auto with notes.
Qed.

Lemma analysisStage_extends a count radius d level n :
  notesExtend n (analysisStage a count radius d level n).
Proof.
  unfold analysisStage.
  destruct a; cbv zeta;
    repeat match goal with
           | |- context [if ?c then _ else _] => destruct c
           end;
    auto with notes.
Qed.

(** The strings of the industry and of the analysis type are appended to the
    lists the tier starts with, and replace none of them: each of the four
    lists begins with the tier's own strings, in their order. *)
Theorem tier_strings_come_first (count : JsInt) (radius : Q) (a : AnalysisType)
    (bc : option BusinessContext) :
  notesExtend (snd (densityStage (density count radius)))
    (collectedNotes count radius a bc)
  /\ extends (notedRecommendations (snd (densityStage (density count radius))))
       (recommendations (generateBusinessIntelligence count radius a bc)).
Proof.
  assert (H : notesExtend (snd (densityStage (density count radius)))
                (collectedNotes count radius a bc)).
  { unfold collectedNotes.
    destruct (densityStage (density count radius)) as [level n]. simpl.
    eapply notesExtend_trans;
      [apply industryStage_extends | apply analysisStage_extends]. }
  split; [exact H | apply H].
Qed.

(** *** Which keys a classification has *)

Lemma levelIs_spec (x y : CompetitionLevel) : levelIs x y = true <-> x = y.
Proof. destruct x, y; simpl; split; congruence. Qed.

(** The lists a tier starts with: which of them are empty. *)
Lemma densityStage_empty (d : JsReal) :
  let level := fst (densityStage d) in
  let n := snd (densityStage d) in
  (notedRiskFactors n = [] <-> level = LOW \/ level = MODERATE)
  /\ (notedOpportunities n = [] <-> level = MODERATE \/ level = HIGH)
  /\ (notedStrategicInsights n = [] <-> level = LOW \/ level = SATURATED).
Proof.
  unfold densityStage.
  destruct (js_lt d 1); [|destruct (js_lt d 5); [|destruct (js_lt d 15)]];
    cbn; intuition congruence.
Qed.

(** The industry adds no risk, an opportunity only to a LOW tier, and an
    insight exactly when it has one. *)
Lemma industryStage_empty bc level n :
  notedRiskFactors (industryStage bc level n) = notedRiskFactors n
  /\ (level <> LOW ->
      notedOpportunities (industryStage bc level n) = notedOpportunities n)
  /\ (notedStrategicInsights (industryStage bc level n) = [] <->
        notedStrategicInsights n = []
        /\ industryHasInsight (industryOf bc) = false).
Proof.
  unfold industryStage, industryOf.
  destruct bc as [[[i|] ? ? ? ?]|]; cbn [industry];
    [destruct i| |]; cbv zeta; destruct level; cbn;
    repeat split; try tauto; try congruence;
    try match goal with
        | H : _ ++ [_] = [] |- _ => now apply snoc_not_nil in H
        end;
    try (intros [_ H]; discriminate H).
Qed.

(** The analysis type adds a risk only when it counts more than 10
    competitors, and no opportunity and no insight. *)
Lemma analysisStage_empty a count radius d level n :
  (notedRiskFactors (analysisStage a count radius d level n) = [] <->
     notedRiskFactors n = []
     /\ ~ (a = COMPETITOR_ANALYSIS /\ js_int_gt count 10 = true))
  /\ notedOpportunities (analysisStage a count radius d level n)
     = notedOpportunities n
  /\ notedStrategicInsights (analysisStage a count radius d level n)
     = notedStrategicInsights n.
Proof.
  unfold analysisStage.
  destruct a; cbv zeta;
    try destruct (js_int_gt count 10); try destruct level; cbn;
    repeat split; try tauto; try (intuition congruence);
    try match goal with
        | H : _ ++ [_] = [] |- _ => now apply snoc_not_nil in H
        end.
Qed.

(** [riskFactors] is left out exactly for a LOW or MODERATE tier, unless the
    analysis counts competitors and finds more than 10; [opportunities] is
    left out exactly for a MODERATE or HIGH tier; [strategicInsights] is left
    out exactly for a LOW or SATURATED tier when the industry has no insight
    of its own. *)
Theorem keys_of_a_classification (count : JsInt) (radius : Q) (a : AnalysisType)
    (bc : option BusinessContext) :
  let bi := generateBusinessIntelligence count radius a bc in
  let level := competitionLevel bi in
  (riskFactors bi = None <->
     (level = LOW \/ level = MODERATE)
     /\ ~ (a = COMPETITOR_ANALYSIS /\ js_int_gt count 10 = true))
  /\ (opportunities bi = None <-> level = MODERATE \/ level = HIGH)
  /\ (strategicInsights bi = None <->
        (level = LOW \/ level = SATURATED)
        /\ industryHasInsight (industryOf bc) = false).
Proof.
  cbv zeta. unfold generateBusinessIntelligence, collectedNotes.
  cbn [riskFactors opportunities strategicInsights competitionLevel].
  set (d := density count radius).
  destruct (densityStage_empty d) as (D1 & D2 & D3).
  destruct (densityStage d) as [level n]. cbn [fst snd] in *.
  set (n1 := industryStage bc level n).
  destruct (industryStage_empty bc level n) as (I1 & I2 & I3).
  destruct (analysisStage_empty a count radius d level n1) as (A1 & A2 & A3).
  fold n1 in I1, I2, I3.
  set (n2 := analysisStage a count radius d level n1) in *.
  destruct (orUndefined_spec (notedRiskFactors n2)) as [R _].
  destruct (orUndefined_spec (notedOpportunities n2)) as [O _].
  destruct (orUndefined_spec (notedStrategicInsights n2)) as [S _].
  rewrite R, O, S, A1, A2, A3, I1, I3, D1, D3.
  split; [tauto|]. split; [|tauto].
  split.
  - intros H. destruct level; try (left; reflexivity); try (right; reflexivity);
      exfalso.
    + destruct (industryStage_extends bc LOW n) as (_ & _ & [added Hadd] & _).
      fold n1 in Hadd. rewrite H in Hadd.
      symmetry in Hadd. apply app_eq_nil in Hadd as [Hn _].
      apply D2 in Hn. destruct Hn; discriminate.
    + rewrite I2 in H by discriminate. apply D2 in H. destruct H; discriminate.
  - intros H. rewrite I2 by (destruct H; congruence). now apply D2.
Qed.

(** ** The retry loop: what is sent *)

(** A pass that continues keeps the filter or cuts its radius. *)
Lemma attempt_continue_filter net ins st st' :
  attempt net ins st = Continue st' ->
  currentFilter st' = currentFilter st
  \/ currentFilter st' = reduceRadius (currentFilter st).
Proof. intros H. attempt_cases H; simpl; auto. Qed.

(** A property of filters that cutting the radius keeps holds of every
    request once it holds of the first. *)
Lemma loops_filter_invariant (P : Filter -> Prop) net ins st e :
  (forall f, P f -> P (reduceRadius f)) ->
  loops net ins st e ->
  P (currentFilter st) ->
  Forall (fun b => P (bodyFilter b)) (sent st) ->
  Forall (fun b => P (bodyFilter b)) (sent (endState e)).
Proof.
  intros Hkeep.
  induction 1 as [st Hlt|st data st' Hlt Hstep|st err st' Hlt Hstep
                 |st st' e Hlt Hstep Hloop IH]; simpl; intros HP Hall.
  - assumption.
  - rewrite (attempt_break_sent _ _ _ _ _ Hstep). apply Forall_app. split; auto.
  - rewrite (attempt_throw_sent _ _ _ _ _ Hstep). apply Forall_app. split; auto.
  - apply IH.
    + destruct (attempt_continue_filter _ _ _ _ Hstep) as [-> | ->]; auto.
    + rewrite (attempt_continue_sent _ _ _ _ Hstep). apply Forall_app. split; auto.
Qed.

Lemma reduceRadius_refinements f :
  refinementsHold f -> refinementsHold (reduceRadius f).
Proof.
  rewrite reduceRadius_withRadius. unfold refinementsHold, locationFilterRefine.
  intros [Hloc Htype]. split; [|exact Htype].
  cbn [withRadius locationFilter circle region customArea latLng circlePlace].
  destruct (circle (locationFilter f)) as [c|]; exact Hloc.
Qed.

Lemma enhancedFilter_typeFilterRefine context :
  typeFilterRefine (typeFilter (filter context)) = true ->
  typeFilterRefine (typeFilter (enhancedFilter context)) = true.
Proof.
  intros Huser. unfold enhancedFilter.
  destruct (businessContext context) as [bc|]; [|exact Huser].
  destruct (industry bc) as [i|]; [|exact Huser].
  destruct i; cbn; try exact Huser; unfold typeFilterRefine; cbn;
    auto using orb_true_r.
Qed.

(** When the caller's filter passes the two refinements of the schema (a
    usable location, a non-empty inclusion list), so does the filter of
    every request sent, after the preset merge and after every retry. *)
Theorem refinements_kept apiKey net now context run :
  execute apiKey net now context = Some run ->
  refinementsHold (filter context) ->
  Forall (fun b => refinementsHold (bodyFilter b)) (requests run).
Proof.
  intros Hex [Hloc Htype].
  destruct (execute_inv _ _ _ _ _ Hex) as [->|(e & Hloop & Hreq & _)].
  - constructor.
  - rewrite Hreq.
    apply (loops_filter_invariant refinementsHold _ _ _ _
             reduceRadius_refinements Hloop); [|constructor].
    split.
    + cbn [initialState currentFilter].
      now rewrite enhancedFilter_locationFilter.
    + now apply enhancedFilter_typeFilterRefine.
Qed.

Lemma refinements_kept_witness :
  execute (Some "key") alwaysCapacity "now" fastFoodContext = Some fastFoodRun
  /\ refinementsHold (filter fastFoodContext)
  /\ Forall (fun b => refinementsHold (bodyFilter b)) (requests fastFoodRun).
Proof.
  assert (H : refinementsHold (filter fastFoodContext)) by (split; reflexivity).
  split; [exact execute_fastFoodRun|]. split; [exact H|].
  exact (refinements_kept (Some "key") alwaysCapacity "now" fastFoodContext
           fastFoodRun execute_fastFoodRun H).
Defined.

Lemma quarter_bounds (r : Q) :
  radiusInSchema r ->
  let z := Qfloor (r * (1 # 4)) in
  (0 <= z <= 12500)%Z
  /\ (inject_Z z < r)%Q
  /\ (z = 0%Z <-> (r < 4)%Q).
Proof.
  intros [Hlo Hhi] z.
  pose proof (Qfloor_le (r * (1 # 4))) as Hfloor.
  pose proof (Qlt_floor (r * (1 # 4))) as Hceil.
  fold z in Hfloor, Hceil.
  assert (Hz0 : (0 <= z)%Z).
  { change 0%Z with (Qfloor 0). apply Qfloor_resp_le. Lqa.lra. }
  split; [split; [exact Hz0|]|split].
  - change 12500%Z with (Qfloor 12500). apply Qfloor_resp_le. Lqa.lra.
  - Lqa.lra.
  - split.
    + intros Hz. rewrite Hz in Hceil. change (inject_Z (0 + 1)) with 1%Q in Hceil.
      Lqa.lra.
    + intros Hr.
      assert (Hlt : (z < 1)%Z).
      { rewrite Zlt_Qlt. change (inject_Z 1) with 1%Q. Lqa.lra. }
      lia.
Qed.

(** After a capacity response to a request whose circle has a radius within
    the schema's bounds, the next request keeps the centre of the circle and
    carries a whole radius, strictly smaller, between 0 and 12500; the radius
    is 0, under the schema's minimum of 1, exactly when the radius before was
    under 4. *)
Theorem retry_radius_shrinks apiKey net now context run i b b' body json c :
  execute apiKey net now context = Some run ->
  nth_error (requests run) i = Some b ->
  nth_error (requests run) (S i) = Some b' ->
  net i b = Responded 429 body json ->
  includes capacityPhrase body = true ->
  circle (locationFilter (bodyFilter b)) = Some c ->
  radiusInSchema (radius c) ->
  exists z,
    circle (locationFilter (bodyFilter b'))
    = Some {| latLng := latLng c;
              circlePlace := circlePlace c;
              radius := inject_Z z |}
    /\ (0 <= z <= 12500)%Z
    /\ (inject_Z z < radius c)%Q
    /\ (z = 0%Z <-> (radius c < 4)%Q).
Proof.
  intros Hex Hb Hb' Hnet Hbody Hc Hr.
  destruct (execute_inv _ _ _ _ _ Hex) as [->|(e & Hloop & Hreq & _)].
  { destruct i; discriminate. }
  rewrite Hreq in Hb, Hb'.
  pose proof (loops_capacity_step _ _ _ _ i b b' body json Hloop
                (Nat.le_0_l i) Hb Hb' Hnet Hbody) as Hstep.
  rewrite Hstep, reduceRadius_withRadius.
  assert (Hcur : radiusOr1000 (bodyFilter b) = radius c).
  { unfold radiusOr1000. rewrite Hc.
    destruct (radius_in_schema_positive _ Hr) as [-> _]. reflexivity. }
  exists (Qfloor (radius c * (1 # 4))).
  unfold newRadiusOf. rewrite Hcur.
  cbn [withRadius locationFilter circle]. rewrite Hc.
  split; [reflexivity | apply (quarter_bounds _ Hr)].
Qed.

Lemma hundred_in_schema : radiusInSchema 100.
Proof. split; unfold Qle; simpl; lia. Qed.

Lemma retry_radius_shrinks_witness :
  execute (Some "key") alwaysCapacity "now" fastFoodContext = Some fastFoodRun
  /\ radiusInSchema 100
  /\ exists z,
       Some {| latLng := Some {| latitude := 40 # 1; longitude := (-74) # 1 |};
               circlePlace := None;
               radius := inject_Z 25 |}
       = Some {| latLng := Some {| latitude := 40 # 1; longitude := (-74) # 1 |};
                 circlePlace := None;
                 radius := inject_Z z |}
       /\ (0 <= z <= 12500)%Z
       /\ (inject_Z z < 100)%Q
       /\ (z = 0%Z <-> (100 < 4)%Q).
Proof.
  split; [exact execute_fastFoodRun|]. split; [exact hundred_in_schema|].
  exact (retry_radius_shrinks (Some "key") alwaysCapacity "now" fastFoodContext
           fastFoodRun 0 _ _ _ _ _
           execute_fastFoodRun eq_refl eq_refl eq_refl eq_refl eq_refl
           hundred_in_schema).
Defined.

(** After a capacity response to a request without a circle (a region or a
    custom area), the next request carries a circle of radius 250 with no
    centre, beside the region and the custom area as they were. *)
Theorem retry_without_circle_adds_one apiKey net now context run i b b' body json :
  execute apiKey net now context = Some run ->
  nth_error (requests run) i = Some b ->
  nth_error (requests run) (S i) = Some b' ->
  net i b = Responded 429 body json ->
  includes capacityPhrase body = true ->
  circle (locationFilter (bodyFilter b)) = None ->
  locationFilter (bodyFilter b')
  = {| circle := Some {| latLng := None; circlePlace := None; radius := 250 |};
       region := region (locationFilter (bodyFilter b));
       customArea := customArea (locationFilter (bodyFilter b)) |}.
Proof.
  intros Hex Hb Hb' Hnet Hbody Hc.
  destruct (execute_inv _ _ _ _ _ Hex) as [->|(e & Hloop & Hreq & _)].
  { destruct i; discriminate. }
  rewrite Hreq in Hb, Hb'.
  rewrite (loops_capacity_step _ _ _ _ i b b' body json Hloop
             (Nat.le_0_l i) Hb Hb' Hnet Hbody), reduceRadius_withRadius.
  unfold newRadiusOf, radiusOr1000.
  cbn [withRadius locationFilter]. rewrite Hc. reflexivity.
Qed.

Lemma execute_regionRun :
  execute (Some "key") (capacityThen 1 (countOnly "5")) "now" regionContext
  = Some regionRun.
Proof. reflexivity. Qed.

Lemma retry_without_circle_adds_one_witness :
  execute (Some "key") (capacityThen 1 (countOnly "5")) "now" regionContext
  = Some regionRun
  /\ circle regionOnly = None
  /\ {| circle := Some {| latLng := None; circlePlace := None; radius := 250 |};
        region := Some {| regionPlace := "places/region-1" |};
        customArea := None |}
     = {| circle := Some {| latLng := None; circlePlace := None; radius := 250 |};
          region := region regionOnly;
          customArea := customArea regionOnly |}.
Proof.
  split; [exact execute_regionRun|]. split; [reflexivity|].
  exact (retry_without_circle_adds_one (Some "key")
           (capacityThen 1 (countOnly "5")) "now" regionContext regionRun 0
           _ _ _ _ execute_regionRun eq_refl eq_refl eq_refl eq_refl eq_refl).
Defined.

(** ** [execute]: how it ends *)

Lemma loops_sends_a_request net ins st e :
  loops net ins st e ->
  (attempts st <? maxAttempts)%nat = true ->
  sent (endState e) <> [].
Proof.
  intros Hloop Hlt.
  destruct Hloop as [st Hexit|st data st' _ Hstep|st err st' _ Hstep
                    |st st' e _ Hstep Hloop]; cbn [endState].
  - congruence.
  - rewrite (attempt_break_sent _ _ _ _ _ Hstep). apply snoc_not_nil.
  - rewrite (attempt_throw_sent _ _ _ _ _ Hstep). apply snoc_not_nil.
  - destruct (loops_extends _ _ _ _ Hloop) as [suffix ->].
    rewrite (attempt_continue_sent _ _ _ _ Hstep), <- app_assoc.
    destruct (sent st); discriminate.
Qed.

(** No request is sent exactly when the API key is unset or empty, and
    [execute] then throws the error of the missing key; with a key, the
    requested filter merged with the preset is always sent first. *)
Theorem no_request_without_key apiKey net now context run :
  execute apiKey net now context = Some run ->
  (requests run = [] <-> apiKeyMissing apiKey = true)
  /\ (apiKeyMissing apiKey = true -> outcome run = Threw MissingApiKey)
  /\ (apiKeyMissing apiKey = false ->
      exists rest,
        requests run
        = {| bodyInsights := insights context;
             bodyFilter := enhancedFilter context |} :: rest).
Proof.
  intros Hex. unfold execute in Hex.
  destruct (apiKeyMissing apiKey) eqn:Hkey.
  - inversion Hex; subst. simpl. repeat split; auto; discriminate.
  - assert (Hex' : execute apiKey net now context = Some run).
    { unfold execute. now rewrite Hkey. }
    destruct (execute_inv _ _ _ _ _ Hex') as [Hrun|(e & Hloop & Hreq & _)].
    + exfalso. rewrite Hrun in Hex'. unfold execute in Hex'.
      rewrite Hkey in Hex'.
      destruct (retryLoop _ _ _ _) as [[[d|] st|err st]|] eqn:Hl;
        inversion Hex' as [Hsent].
      all: apply retryLoop_loops in Hl.
      all: apply (loops_sends_a_request _ _ _ _ Hl eq_refl).
      all: simpl; auto.
    + assert (Hne : requests run <> []).
      { rewrite Hreq. apply (loops_sends_a_request _ _ _ _ Hloop eq_refl). }
      split; [split; [tauto | discriminate]|].
      split; [discriminate|]. intros _.
      destruct (requests run) as [|first rest] eqn:Hrq; [congruence|].
      exists rest. f_equal.
      apply (execute_first_request _ _ _ _ _ _ Hex').
      now rewrite Hrq.
Qed.

Lemma no_request_without_key_witness :
  execute (Some "") alwaysCapacity "now" fastFoodContext
  = Some {| requests := []; outcome := Threw MissingApiKey |}
  /\ (([] : list RequestBody) = [] <-> apiKeyMissing (Some "") = true).
Proof.
  split; [reflexivity|].
  exact (proj1 (no_request_without_key (Some "") alwaysCapacity "now"
                  fastFoodContext
                  {| requests := []; outcome := Threw MissingApiKey |}
                  eq_refl)).
Defined.

Lemma retryLoop_continue net ins fuel st st' :
  (attempts st <? maxAttempts)%nat = true ->
  attempt net ins st = Continue st' ->
  retryLoop (S fuel) net ins st = retryLoop fuel net ins st'.
Proof. intros Hlt Hstep. cbn [retryLoop]. now rewrite Hlt, Hstep. Qed.

(** The run against a service that refuses the first three requests. *)
Lemma three_refusals_run apiKey net now context :
  apiKeyMissing apiKey = false ->
  (forall i b, (i < 3)%nat ->
     exists body json,
       net i b = Responded 429 body json
       /\ includes capacityPhrase body = true) ->
  execute apiKey net now context
  = Some {| requests :=
              [{| bodyInsights := insights context;
                  bodyFilter := enhancedFilter context |};
               {| bodyInsights := insights context;
                  bodyFilter := reduceRadius (enhancedFilter context) |};
               {| bodyInsights := insights context;
                  bodyFilter :=
                    reduceRadius (reduceRadius (enhancedFilter context)) |}];
            outcome := Threw NoData |}.
Proof.
  intros Hkey Hnet. unfold execute. rewrite Hkey.
  set (ins := insights context).
  set (st0 := initialState context).
  destruct (Hnet 0%nat (requestOf ins st0)) as (b0 & j0 & H0 & P0); [lia|].
  assert (A0 := attempt_capacity net ins st0 b0 j0
                  (H0 : net (List.length (sent st0)) (requestOf ins st0)
                          = Responded 429 b0 j0) P0).
  set (st1 := {| currentFilter := reduceRadius (currentFilter st0);
                 attempts := S (attempts st0);
                 sent := sent st0 ++ [requestOf ins st0] |}) in A0.
  destruct (Hnet 1%nat (requestOf ins st1)) as (b1 & j1 & H1 & P1); [lia|].
  assert (A1 := attempt_capacity net ins st1 b1 j1
                  (H1 : net (List.length (sent st1)) (requestOf ins st1)
                          = Responded 429 b1 j1) P1).
  set (st2 := {| currentFilter := reduceRadius (currentFilter st1);
                 attempts := S (attempts st1);
                 sent := sent st1 ++ [requestOf ins st1] |}) in A1.
  destruct (Hnet 2%nat (requestOf ins st2)) as (b2 & j2 & H2 & P2); [lia|].
  assert (A2 := attempt_capacity net ins st2 b2 j2
                  (H2 : net (List.length (sent st2)) (requestOf ins st2)
                          = Responded 429 b2 j2) P2).
  fold ins st0.
  change (retryLoop (S maxAttempts)) with (retryLoop 4).
  rewrite (retryLoop_continue net ins _ st0 st1 eq_refl A0).
  rewrite (retryLoop_continue net ins _ st1 st2 eq_refl A1).
  rewrite (retryLoop_continue net ins _ st2 _ eq_refl A2).
  reflexivity.
Qed.

(** Three capacity responses in a row use up the attempts: three requests
    are sent and [execute] throws that it got no data. *)
Theorem three_refusals_exhaust apiKey net now context :
  apiKeyMissing apiKey = false ->
  (forall i b, (i < 3)%nat ->
     exists body json,
       net i b = Responded 429 body json
       /\ includes capacityPhrase body = true) ->
  exists run,
    execute apiKey net now context = Some run
    /\ outcome run = Threw NoData
    /\ List.length (requests run) = 3%nat.
Proof.
  intros Hkey Hnet. eexists.
  split; [apply (three_refusals_run _ _ _ _ Hkey Hnet)|].
  split; reflexivity.
Qed.

Lemma three_refusals_exhaust_witness :
  exists run,
    execute (Some "key") alwaysCapacity "now" fastFoodContext = Some run
    /\ outcome run = Threw NoData
    /\ List.length (requests run) = 3%nat.
Proof.
  refine (three_refusals_exhaust (Some "key") alwaysCapacity "now"
            fastFoodContext eq_refl _).
  intros i b _. eexists _, _. split; reflexivity.
Defined.

(** The state from which a request of the trace was sent: it had sent the
    requests before it and had attempts left. *)
Lemma loops_request_state net ins st e i b :
  loops net ins st e ->
  (List.length (sent st) <= i)%nat ->
  nth_error (sent (endState e)) i = Some b ->
  exists st_i,
    List.length (sent st_i) = i
    /\ b = requestOf ins st_i
    /\ (attempts st_i <? maxAttempts)%nat = true
    /\ passEnds net ins st_i e.
Proof.
  intros Hloop. revert i.
  induction Hloop as [st Hlt|st d st1 Hlt Hstep|st err st1 Hlt Hstep
                     |st st1 e Hlt Hstep Hloop IH];
    intros i Hi Hnth; cbn [endState] in *.
  - assert (i < List.length (sent st))%nat by (apply nth_error_Some; congruence). lia.
  - rewrite (attempt_break_sent _ _ _ _ _ Hstep) in Hnth.
    destruct (nth_error_snoc _ _ _ _ Hnth Hi) as [-> ->].
    exists st. repeat split; auto. eapply pass_breaks; eauto.
  - rewrite (attempt_throw_sent _ _ _ _ _ Hstep) in Hnth.
    destruct (nth_error_snoc _ _ _ _ Hnth Hi) as [-> ->].
    exists st. repeat split; auto. eapply pass_throws; eauto.
  - destruct (Nat.eq_dec i (List.length (sent st))) as [->|Hne].
    + pose proof (loops_next_request _ _ _ _ b
                    (loops_continue _ _ _ _ _ Hlt Hstep Hloop) Hnth) as ->.
      exists st. repeat split; auto. eapply pass_continues; eauto.
    + apply IH; auto.
      rewrite (attempt_continue_sent _ _ _ _ Hstep), length_app. simpl. lia.
Qed.

(** A pass that throws inside its [try] goes through the [catch] block. *)
Lemma attempt_thrown net ins st err :
  thrownError (net (List.length (sent st)) (requestOf ins st)) = Some err ->
  attempt net ins st
  = catchBlock err {| currentFilter := currentFilter st;
                      attempts := attempts st;
                      sent := sent st ++ [requestOf ins st] |}.
Proof.
  unfold thrownError, attempt. fold (requestOf ins st).
  destruct (net _ _) as [m|status body [m|d]]; cbv zeta.
  - now intros [= <-].
  - destruct (negb (ok status)).
    + destruct ((status =? 429)%nat && includes capacityPhrase body);
        [discriminate | now intros [= <-]].
    + now intros [= <-].
  - destruct (negb (ok status)).
    + destruct ((status =? 429)%nat && includes capacityPhrase body);
        [discriminate | now intros [= <-]].
    + discriminate.
Qed.

(** An [ok] response whose body is a falsy value ([null], [0], [false]) is
    not retried: [execute] throws that it got no data, after that request. *)
Theorem falsy_body_is_no_data apiKey net now context run i b status text :
  execute apiKey net now context = Some run ->
  nth_error (requests run) i = Some b ->
  net i b = Responded status text (JsonValue None) ->
  ok status = true ->
  outcome run = Threw NoData
  /\ List.length (requests run) = S i.
Proof.
  intros Hex Hnth Hnet Hok.
  destruct (execute_inv _ _ _ _ _ Hex) as [->|(e & Hloop & Hreq & Hout)].
  { destruct i; discriminate. }
  rewrite Hreq in Hnth |- *.
  destruct (loops_request_pass _ _ _ _ _ _ Hloop (Nat.le_0_l i) Hnth)
    as (st_i & <- & -> & Hpass).
  destruct (attempt_ok _ (insights context) _ _ _ _ Hnet Hok) as [st2 Hbreak].
  destruct Hpass as [st' Hstep _|d st' Hstep ->|err st' Hstep _];
    rewrite Hstep in Hbreak; inversion Hbreak; subst.
  split; [exact Hout|]. cbn [endState].
  rewrite (attempt_break_sent _ _ _ _ _ Hstep), length_app. simpl. lia.
Qed.

Lemma execute_nullBodyRun :
  execute (Some "key") nullBody "now" fastFoodContext = Some nullBodyRun.
Proof. reflexivity. Qed.

Lemma falsy_body_is_no_data_witness :
  execute (Some "key") nullBody "now" fastFoodContext = Some nullBodyRun
  /\ outcome nullBodyRun = Threw NoData
  /\ List.length (requests nullBodyRun) = 1%nat.
Proof.
  split; [exact execute_nullBodyRun|].
  exact (falsy_body_is_no_data (Some "key") nullBody "now" fastFoodContext
           nullBodyRun 0 _ 200 "null" execute_nullBodyRun eq_refl eq_refl eq_refl).
Defined.

(** What the pass that sent a request did with an error thrown in its
    [try]: the loop ended with that error, or it went on from the same
    filter with one more attempt counted. *)
Lemma loops_thrown net ins st e i b err :
  loops net ins st e ->
  (List.length (sent st) <= i)%nat ->
  nth_error (sent (endState e)) i = Some b ->
  thrownError (net i b) = Some err ->
  (messageIncludesPhrase err = false ->
     List.length (sent (endState e)) = S i
     /\ exists st', e = Raised err st')
  /\ (messageIncludesPhrase err = true ->
      forall b', nth_error (sent (endState e)) (S i) = Some b' -> b' = b).
Proof.
  intros Hloop Hi Hnth Herr.
  destruct (loops_request_state _ _ _ _ _ _ Hloop Hi Hnth)
    as (st_i & <- & -> & Hlt & Hpass).
  pose proof (attempt_thrown _ _ _ _ Herr) as Hcatch.
  unfold catchBlock in Hcatch. cbn [attempts] in Hcatch.
  assert (Hmax : (maxAttempts <=? attempts st_i)%nat = false).
  { apply Nat.ltb_lt in Hlt. apply Nat.leb_gt. exact Hlt. }
  rewrite Hmax in Hcatch. cbn [orb] in Hcatch.
  split; intros Hphrase; rewrite Hphrase in Hcatch; cbn [negb] in Hcatch.
  - destruct Hpass as [st' Hstep _|d st' Hstep _|err' st' Hstep ->];
      rewrite Hstep in Hcatch; inversion Hcatch; subst.
    split; [|eauto]. cbn [endState sent]. rewrite length_app. simpl. lia.
  - intros b' Hb'.
    destruct Hpass as [st' Hstep Hrest|d st' Hstep ->|err' st' Hstep ->];
      rewrite Hstep in Hcatch; inversion Hcatch; subst.
    + assert (Hnext : S (List.length (sent st_i))
                      = List.length (sent st_i ++ [requestOf ins st_i])).
      { rewrite length_app. simpl. lia. }
      rewrite Hnext in Hb'.
      now rewrite (loops_next_request _ _ _ _ b' Hrest Hb').
Qed.

(** An exception raised by [fetch] or by [response.json()] whose message
    lacks the cap-exceeded phrase, or that has no message, is thrown on as it
    is, and nothing more is sent. *)
Theorem exception_is_rethrown apiKey net now context run i b message :
  execute apiKey net now context = Some run ->
  nth_error (requests run) i = Some b ->
  raised (net i b) = Some message ->
  messageIncludesPhrase (Rejection message) = false ->
  outcome run = Threw (Rejection message)
  /\ List.length (requests run) = S i.
Proof.
  intros Hex Hnth Hraised Hphrase.
  assert (Herr : thrownError (net i b) = Some (Rejection message)).
  { unfold raised in Hraised.
    destruct (thrownError (net i b)) as [[]|]; try discriminate.
    now inversion Hraised. }
  destruct (execute_inv _ _ _ _ _ Hex) as [->|(e & Hloop & Hreq & Hout)].
  { destruct i; discriminate. }
  rewrite Hreq in Hnth |- *.
  destruct (loops_thrown _ _ _ _ _ _ _ Hloop (Nat.le_0_l i) Hnth Herr)
    as [Hfatal _].
  destruct (Hfatal Hphrase) as [Hlen [st' ->]].
  split; [exact Hout | exact Hlen].
Qed.

Lemma execute_networkDownRun :
  execute (Some "key") networkDown "now" fastFoodContext = Some networkDownRun.
Proof. reflexivity. Qed.

Lemma exception_is_rethrown_witness :
  execute (Some "key") networkDown "now" fastFoodContext = Some networkDownRun
  /\ outcome networkDownRun = Threw (Rejection (Some "fetch failed"))
  /\ List.length (requests networkDownRun) = 1%nat.
Proof.
  split; [exact execute_networkDownRun|].
  exact (exception_is_rethrown (Some "key") networkDown "now" fastFoodContext
           networkDownRun 0 _ (Some "fetch failed")
           execute_networkDownRun eq_refl eq_refl eq_refl).
Defined.

(** When a pass throws an error whose message contains the cap-exceeded
    phrase and that is not the capacity response itself, the request that
    follows, if any, is the same request again: the radius is not cut. *)
Theorem caught_error_repeats_request apiKey net now context run i b b' err :
  execute apiKey net now context = Some run ->
  nth_error (requests run) i = Some b ->
  nth_error (requests run) (S i) = Some b' ->
  thrownError (net i b) = Some err ->
  b' = b /\ messageIncludesPhrase err = true.
Proof.
  intros Hex Hb Hb' Herr.
  destruct (execute_inv _ _ _ _ _ Hex) as [->|(e & Hloop & Hreq & Hout)].
  { destruct i; discriminate. }
  rewrite Hreq in Hb, Hb'.
  destruct (loops_thrown _ _ _ _ _ _ _ Hloop (Nat.le_0_l i) Hb Herr)
    as [Hfatal Hretry].
  destruct (messageIncludesPhrase err) eqn:Hphrase.
  - split; [now apply Hretry | reflexivity].
  - destruct (Hfatal eq_refl) as [Hlen _].
    assert (S i < List.length (sent (endState e)))%nat
      by (apply nth_error_Some; congruence).
    lia.
Qed.

Lemma caught_error_repeats_request_witness :
  execute (Some "key") alwaysServerError "now" fastFoodContext
  = Some serverErrorRun
  /\ requestOf [INSIGHT_COUNT] (initialState fastFoodContext)
     = requestOf [INSIGHT_COUNT] (initialState fastFoodContext)
  /\ messageIncludesPhrase
       (RequestFailed 500
          "Internal error while checking the maximum number of allowed places")
     = true.
Proof.
  assert (Hrun : execute (Some "key") alwaysServerError "now" fastFoodContext
                 = Some serverErrorRun) by reflexivity.
  split; [exact Hrun|].
  exact (caught_error_repeats_request (Some "key") alwaysServerError "now"
           fastFoodContext serverErrorRun 0 _ _ _
           Hrun eq_refl eq_refl eq_refl).
Defined.

(** ** The result: industry and insights *)

(** A result reports the industry of the business context and the context
    itself when an industry is given, and neither otherwise; it has the
    insights for retail marketers exactly for the retail and food-service
    industries, the insights for solo professionals exactly for the solo and
    professional-services industries, and never both. *)
Theorem industry_insights apiKey net now context run r :
  execute apiKey net now context = Some run ->
  outcome run = Returned r ->
  metaIndustry (metadata r) = contextIndustry context
  /\ strategicContext (metadata r)
     = (if isSome (contextIndustry context) then businessContext context
        else None)
  /\ isSome (retailMarketerInsights r) = retailIndustry (contextIndustry context)
  /\ isSome (soloProfessionalInsights r) = soloIndustry (contextIndustry context)
  /\ (isSome (retailMarketerInsights r) && isSome (soloProfessionalInsights r)
      = false).
Proof.
  intros Hex Hout.
  destruct (execute_returned _ _ _ _ _ _ Hex Hout)
    as (data & places & _ & _ & ->).
  cbn [buildResult metadata metaIndustry strategicContext
       retailMarketerInsights soloProfessionalInsights].
  destruct (contextIndustry context) as [[]|]; repeat split; reflexivity.
Qed.

Lemma industry_insights_witness :
  execute (Some "key") (capacityThen 0 threePlaces) "now" customContext
  = Some customRun
  /\ isSome
       (retailMarketerInsights
          (buildResult customContext (enhancedFilter customContext) "now"
             threePlaces (Some threeIdentifiers)))
     = true.
Proof.
  split; [exact execute_customRun|].
  exact (proj1 (proj2 (proj2
           (industry_insights (Some "key") (capacityThen 0 threePlaces) "now"
              customContext customRun _ execute_customRun eq_refl)))).
Defined.

(** ** The result: counts that read as zero *)

(** When the count of the response is missing, empty, ["0"] or [0], the
    classification, when it runs, is LOW, whatever the radius requested. *)
Theorem zero_count_is_low apiKey net now context run r data bi :
  execute apiKey net now context = Some run ->
  outcome run = Returned r ->
  answeredData net run = Some data ->
  parsedCount data = Fin 0 ->
  businessIntelligence r = Some bi ->
  competitionLevel bi = LOW.
Proof.
  intros Hex Hout Hdata Hzero Hbi.
  pose proof (execute_answered _ _ _ _ _ _ Hex Hdata) as Hr.
  rewrite Hout in Hr. symmetry in Hr.
  destruct (finish_returned _ _ _ _ Hr) as (places & _ & ->).
  cbn [buildResult businessIntelligence] in Hbi.
  destruct (analysisToRun context) as [a|]; [|discriminate].
  inversion Hbi; subst bi. rewrite Hzero.
  unfold generateBusinessIntelligence. cbn [competitionLevel].
  assert (Hnz : Qeq_bool (radiusOr1000 (enhancedFilter context)) 0 = false).
  { unfold radiusOr1000.
    destruct (circle (locationFilter (enhancedFilter context))) as [c|];
      [|reflexivity].
    destruct (Qeq_bool (radius c) 0) eqn:Hc; [reflexivity | exact Hc]. }
  unfold density. rewrite Hnz.
  apply densityStage_bands. unfold Rdiv. rewrite Rmult_0_l. lra.
Qed.

Lemma zero_count_is_low_witness :
  execute (Some "key") (capacityThen 0 noCount) "now" shrinkContext
  = Some noCountRun
  /\ parsedCount noCount = Fin 0
  /\ competitionLevel
       (generateBusinessIntelligence (parsedCount noCount)
          (radiusOr1000 (enhancedFilter shrinkContext)) MARKET_DENSITY None)
     = LOW.
Proof.
  split; [exact execute_noCountRun|]. split; [reflexivity|].
  exact (zero_count_is_low (Some "key") (capacityThen 0 noCount) "now"
           shrinkContext noCountRun _ noCount _
           execute_noCountRun eq_refl eq_refl eq_refl eq_refl).
Defined.

(** ** The count: strings and numbers *)

Lemma parseDigits_uintZ (d : Decimal.uint) (acc : Z) :
  parseDigits 10 (NilEmpty.string_of_uint d) (Some acc) = Some (uintZ d acc).
Proof.
  revert acc. induction d; intros acc; cbn [NilEmpty.string_of_uint uintZ];
    [reflexivity | ..];
    cbn [parseDigits]; apply IHd.
Qed.

Lemma uintZ_of_uint_acc (d : Decimal.uint) (a : nat) :
  uintZ d (Z.of_nat a) = Z.of_nat (Nat.of_uint_acc d a).
Proof.
  revert a. induction d; intros a; cbn [uintZ Nat.of_uint_acc];
    [reflexivity | ..];
    rewrite <- IHd; f_equal; rewrite Nat.tail_mul_spec; lia.
Qed.

Lemma parseDigits_start (d : Decimal.uint) :
  d <> Decimal.Nil ->
  parseDigits 10 (NilEmpty.string_of_uint d) None = Some (uintZ d 0).
Proof.
  intros Hd. rewrite <- parseDigits_uintZ.
  destruct d; [congruence | ..]; reflexivity.
Qed.

Lemma toNumber_exact (z : Z) : (Z.abs z < 2 ^ 53)%Z -> toNumber z = Fin z.
Proof.
  intros Hz. unfold toNumber.
  destruct (Z.abs z <? 2 ^ 53)%Z eqn:Hlt; [reflexivity|].
  apply Z.ltb_ge in Hlt. lia.
Qed.

(** A string that starts with a decimal digit has no white space to skip. *)
Lemma trimStart_digit (c : ascii) (rest : string) :
  digitValue 10 c <> None ->
  trimStart (String c rest) = String c rest.
Proof.
  intros Hc.
  destruct c as [[] [] [] [] [] [] [] []];
    try (exfalso; apply Hc; reflexivity);
    destruct rest as [|c2 [|c3 rest]]; reflexivity.
Qed.

(** A string of decimal digits has no white space to skip, no sign and no
    hexadecimal prefix. *)
Lemma parseInt_digits (d : Decimal.uint) :
  d <> Decimal.Nil ->
  parseInt (NilEmpty.string_of_uint d) = toNumber (uintZ d 0).
Proof.
  intros Hd.
  transitivity (match parseDigits 10 (NilEmpty.string_of_uint d) None with
                | Some v => toNumber v
                | None => NaN
                end).
  - unfold parseInt.
    destruct d as [|d|d|d|d|d|d|d|d|d|d]; [congruence|..];
      cbn [NilEmpty.string_of_uint];
      (rewrite trimStart_digit by discriminate);
      destruct d; reflexivity.
  - now rewrite parseDigits_start.
Qed.

Lemma parseInt_showNat (n : nat) :
  parseInt (showNat n) = toNumber (Z.of_nat n).
Proof.
  unfold showNat, NilZero.string_of_uint.
  rewrite <- (Unsigned.of_to n) at 2.
  destruct (Nat.to_uint n) eqn:Hd; [reflexivity|..];
    (rewrite parseInt_digits by discriminate);
    change 0%Z with (Z.of_nat 0); now rewrite uintZ_of_uint_acc.
Qed.

Lemma showNat_not_empty (n : nat) : String.eqb (showNat n) "" = false.
Proof.
  unfold showNat, NilZero.string_of_uint.
  destruct (Nat.to_uint n); reflexivity.
Qed.

Lemma uintZ_pos_acc (d : Decimal.uint) (acc : positive) :
  uintZ d (Z.pos acc) = Z.pos (Pos.of_uint_acc d acc).
Proof.
  revert acc. induction d; intros acc; cbn [uintZ Pos.of_uint_acc];
    [reflexivity | ..];
    rewrite <- IHd; f_equal; lia.
Qed.

Lemma uintZ_of_uint (d : Decimal.uint) : uintZ d 0 = Z.of_N (Pos.of_uint d).
Proof.
  induction d; cbn [uintZ Pos.of_uint]; [reflexivity | exact IHd | ..];
    cbn [Z.mul Z.add]; now rewrite uintZ_pos_acc.
Qed.

(** The digits that [toString] prints for a positive integer are read back
    by [parseInt] as that integer, rounded. *)
Lemma parseInt_numberToString (p : positive) :
  parseInt (numberToString (Z.pos p)) = toNumber (Z.pos p).
Proof.
  unfold numberToString. cbn [Z.to_int NilZero.string_of_int].
  unfold NilZero.string_of_uint.
  pose proof (DecimalPos.Unsigned.of_to p) as Hp.
  destruct (Pos.to_uint p) eqn:Hd; [discriminate Hp|..];
    (rewrite parseInt_digits by discriminate);
    now rewrite uintZ_of_uint, Hp.
Qed.

(** A count sent as a string of decimal digits and the same count sent as a
    number are read as the same number, for every count that a JavaScript
    number holds exactly (under [2 ^ 53]). *)
Theorem count_string_or_number (n : nat) (entries : option (list PlaceInsight)) :
  (Z.of_nat n < 2 ^ 53)%Z ->
  parsedCount {| count := Some (CountStr (showNat n)); placeInsights := entries |}
  = Fin (Z.of_nat n)
  /\ parsedCount
       {| count := Some (CountNum (Z.of_nat n)); placeInsights := entries |}
     = Fin (Z.of_nat n).
Proof.
  intros Hn.
  assert (Hexact : toNumber (Z.of_nat n) = Fin (Z.of_nat n)).
  { apply toNumber_exact. lia. }
  unfold parsedCount. cbn [count]. split.
  - rewrite showNat_not_empty, parseInt_showNat. exact Hexact.
  - rewrite Hexact.
    destruct (Z.of_nat n =? 0)%Z eqn:Hz.
    + apply Z.eqb_eq in Hz. now rewrite Hz.
    + assert (Hsmall : (Z.abs (Z.of_nat n) <? 10 ^ 21)%Z = true).
      { apply Z.ltb_lt. assert ((2 ^ 53 < 10 ^ 21)%Z) by reflexivity. lia. }
      rewrite Hsmall.
      destruct (Z.of_nat n) as [|p|p] eqn:Hp; [discriminate | | lia].
      rewrite parseInt_numberToString. exact Hexact.
Qed.

Lemma count_string_or_number_witness :
  (Z.of_nat 42 < 2 ^ 53)%Z
  /\ parsedCount {| count := Some (CountStr "42"); placeInsights := None |}
     = Fin 42
  /\ parsedCount {| count := Some (CountNum 42); placeInsights := None |}
     = Fin 42.
Proof.
  assert (H : (Z.of_nat 42 < 2 ^ 53)%Z) by reflexivity.
  split; [exact H|].
  exact (count_string_or_number 42 None H).
Defined.

(** [parseInt] on some strings, and the count read from some numbers. *)
Example parseInt_stops_at_a_letter : parseInt "  42 places" = Fin 42.
Proof. reflexivity. Qed.

Example parseInt_reads_a_sign : parseInt "-7" = Fin (-7).
Proof. reflexivity. Qed.

Example parseInt_reads_hexadecimal : parseInt "0x1F" = Fin 31.
Proof. reflexivity. Qed.

Example parseInt_skips_a_no_break_space :
  parseInt (String (ascii_of_nat 194) (String (ascii_of_nat 160) "42")) = Fin 42.
Proof. reflexivity. Qed.

Example parseInt_rounds_to_a_double :
  parseInt "9007199254740993" = Fin 9007199254740992.
Proof. vm_compute. reflexivity. Qed.

Example parsedCount_of_a_large_number :
  parsedCount {| count := Some (CountNum (10 ^ 21)); placeInsights := None |}
  = Fin 1.
Proof. vm_compute. reflexivity. Qed.

Example parsedCount_of_a_rounded_number :
  toNumber (10 ^ 23) = Fin 99999999999999991611392
  /\ parsedCount {| count := Some (CountNum (10 ^ 23)); placeInsights := None |}
     = Fin 1.
Proof. split; vm_compute; reflexivity. Qed.

Example parsedCount_of_an_infinity :
  toNumber (2 ^ 1024) = Inf false
  /\ parsedCount {| count := Some (CountNum (2 ^ 1024)); placeInsights := None |}
     = NaN.
Proof. split; vm_compute; reflexivity. Qed.

(** ** The insights for retail marketers and for solo professionals *)

(** The insights for solo professionals never report a significant market
    gap without also reporting a high potential for new clients. *)
Theorem solo_gap_means_potential (data : ApiData) :
  marketGapAnalysis (generateSoloProfessionalInsights data)
  = str "Significant market gap - high opportunity" ->
  clientAcquisitionPotential (generateSoloProfessionalInsights data)
  = str "High potential for new client acquisition".
Proof.
  unfold generateSoloProfessionalInsights.
  cbn [marketGapAnalysis clientAcquisitionPotential].
  destruct (parsedCount data) as [|[]|z]; cbn [js_int_lt];
    [discriminate | reflexivity | discriminate |].
  destruct (z <? 3)%Z eqn:H3; [|discriminate].
  intros _. apply Z.ltb_lt in H3.
  assert (H5 : (z <? 5)%Z = true) by (apply Z.ltb_lt; lia).
  now rewrite H5.
Qed.

Lemma solo_gap_means_potential_witness :
  clientAcquisitionPotential (generateSoloProfessionalInsights (countOnly "2"))
  = str "High potential for new client acquisition".
Proof.
  exact (solo_gap_means_potential (countOnly "2") eq_refl).
Defined.

(** The insights for retail marketers never call the area highly
    competitive while calling it an area of low customer density. *)
Theorem retail_competitive_means_dense (data : ApiData) :
  competitivePositioning (generateRetailInsights data)
  = str "Highly competitive - focus on differentiation" ->
  targetAudienceDensity (generateRetailInsights data)
  = [Lit "High customer density area ("; IntHole (parsedCount data);
     Lit " similar businesses)"].
Proof.
  unfold generateRetailInsights.
  cbn [competitivePositioning targetAudienceDensity].
  destruct (parsedCount data) as [|[]|z]; cbn [js_int_gt];
    [discriminate | discriminate | reflexivity |].
  destruct (10 <? z)%Z eqn:H10; [|discriminate].
  intros _. apply Z.ltb_lt in H10.
  assert (H0 : (0 <? z)%Z = true) by (apply Z.ltb_lt; lia).
  now rewrite H0.
Qed.

Lemma retail_competitive_means_dense_witness :
  targetAudienceDensity (generateRetailInsights (countOnly "12"))
  = [Lit "High customer density area ("; IntHole (Fin 12);
     Lit " similar businesses)"].
Proof.
  exact (retail_competitive_means_dense (countOnly "12") eq_refl).
Defined.

(** ** The retry loop: what the retries leave alone *)

Lemma withRadius_withRadius f r r' :
  withRadius (withRadius f r) r' = withRadius f r'.
Proof.
  unfold withRadius. cbn [locationFilter circle latLng circlePlace region
                            customArea typeFilter operatingStatus priceLevels
                            ratingFilter].
  destruct (circle (locationFilter f)); reflexivity.
Qed.

(** Every request of a run carries the filter of the first request, or that
    filter with nothing but the radius of its circle replaced: the retries
    touch no type list, operating status, price level, rating, centre,
    region or custom area. *)
Theorem retries_change_only_the_radius apiKey net now context run :
  execute apiKey net now context = Some run ->
  Forall (fun b =>
            bodyInsights b = insights context
            /\ (bodyFilter b = enhancedFilter context
                \/ exists r, bodyFilter b = withRadius (enhancedFilter context) r))
    (requests run).
Proof.
  intros Hex.
  destruct (execute_inv _ _ _ _ _ Hex) as [->|(e & Hloop & Hreq & _)];
    [constructor|].
  rewrite Hreq. apply Forall_forall. intros b Hin.
  apply In_nth_error in Hin as [i Hi].
  destruct (loops_request_pass _ _ _ _ _ _ Hloop (Nat.le_0_l i) Hi)
    as (st_i & _ & -> & _).
  split; [reflexivity|].
  set (P := fun f => f = enhancedFilter context
                     \/ exists r, f = withRadius (enhancedFilter context) r).
  assert (Hall : Forall (fun b => P (bodyFilter b)) (sent (endState e))).
  { assert (Hkeep : forall f, P f -> P (reduceRadius f)).
    { intros f [-> | [r ->]]; right; rewrite reduceRadius_withRadius.
      - eauto.
      - rewrite withRadius_withRadius. eauto. }
    apply (loops_filter_invariant P _ _ _ _ Hkeep Hloop);
      [now left | constructor]. }
  rewrite Forall_forall in Hall.
  apply (Hall _ (nth_error_In _ _ Hi)).
Qed.

Lemma retries_change_only_the_radius_witness :
  execute (Some "key") alwaysCapacity "now" fastFoodContext = Some fastFoodRun
  /\ Forall (fun b =>
              bodyInsights b = insights fastFoodContext
              /\ (bodyFilter b = enhancedFilter fastFoodContext
                  \/ exists r,
                       bodyFilter b
                       = withRadius (enhancedFilter fastFoodContext) r))
       (requests fastFoodRun).
Proof.
  split; [exact execute_fastFoodRun|].
  exact (retries_change_only_the_radius (Some "key") alwaysCapacity "now"
           fastFoodContext fastFoodRun execute_fastFoodRun).
Defined.

(** *** The radii of three requests *)

Lemma Qfloor_quarter_twice (r : Q) :
  Qfloor (inject_Z (Qfloor (r * (1 # 4))) * (1 # 4)) = Qfloor (r * (1 # 16)).
Proof.
  set (a := Qfloor (r * (1 # 4))).
  set (b := Qfloor (inject_Z a * (1 # 4))).
  pose proof (Qfloor_le (r * (1 # 4))) as Ha1.
  pose proof (Qlt_floor (r * (1 # 4))) as Ha2.
  pose proof (Qfloor_le (inject_Z a * (1 # 4))) as Hb1.
  pose proof (Qlt_floor (inject_Z a * (1 # 4))) as Hb2.
  fold a in Ha1, Ha2. fold b in Hb1, Hb2.
  assert (Hab : (a + 1 <= 4 * (b + 1))%Z).
  { assert (H : (a < 4 * (b + 1))%Z).
    { rewrite Zlt_Qlt, inject_Z_mult. change (inject_Z 4) with 4%Q. Lqa.lra. }
    lia. }
  rewrite Zle_Qle, inject_Z_mult in Hab. change (inject_Z 4) with 4%Q in Hab.
  symmetry. apply Z.le_antisymm.
  - apply Z.lt_succ_r. unfold Z.succ. rewrite Zlt_Qlt.
    apply Qle_lt_trans with (r * (1 # 16))%Q; [apply Qfloor_le|]. Lqa.lra.
  - assert (H : (b < Qfloor (r * (1 # 16)) + 1)%Z).
    { rewrite Zlt_Qlt.
      apply Qle_lt_trans with (r * (1 # 16))%Q; [Lqa.lra | apply Qlt_floor]. }
    lia.
Qed.

(** The radii of the three requests sent against a service that keeps
    refusing, for a requested radius [r] within the schema's bounds: [r],
    then [floor (r / 4)], then [floor (r / 16)]; except that under 4 the
    second radius is 0, which is read as no radius, and the third is 250. *)
Theorem radii_of_three_refusals apiKey net now context c :
  apiKeyMissing apiKey = false ->
  (forall i b, (i < 3)%nat ->
     exists body json,
       net i b = Responded 429 body json
       /\ includes capacityPhrase body = true) ->
  circle (locationFilter (filter context)) = Some c ->
  radiusInSchema (radius c) ->
  exists run third,
    execute apiKey net now context = Some run
    /\ requestRadii run
       = [Some (radius c);
          Some (inject_Z (Qfloor (radius c * (1 # 4))));
          Some third]
    /\ ((radius c < 4)%Q -> third = 250%Q)
    /\ ((4 <= radius c)%Q -> third = inject_Z (Qfloor (radius c * (1 # 16)))).
Proof.
  intros Hkey Hnet Hc Hr.
  set (F0 := enhancedFilter context).
  assert (Hc0 : circle (locationFilter F0) = Some c).
  { unfold F0. now rewrite enhancedFilter_locationFilter. }
  assert (Hr0 : radiusOr1000 F0 = radius c).
  { unfold radiusOr1000. rewrite Hc0.
    now destruct (radius_in_schema_positive _ Hr) as [-> _]. }
  set (a := Qfloor (radius c * (1 # 4))).
  assert (Hnew : newRadiusOf F0 = a).
  { unfold newRadiusOf. now rewrite Hr0. }
  destruct (quarter_bounds _ Hr) as ([Ha0 _] & _ & Hzero). fold a in Ha0, Hzero.
  eexists. exists (inject_Z (newRadiusOf (reduceRadius F0))).
  split; [apply (three_refusals_run _ _ _ _ Hkey Hnet)|].
  fold F0. unfold requestRadii. cbn [requests map bodyFilter].
  rewrite !reduceRadius_withRadius.
  cbn [withRadius locationFilter circle option_map radius].
  rewrite Hc0, Hnew. cbn [option_map].
  split; [reflexivity|].
  unfold newRadiusOf at 1 2, radiusOr1000.
  cbn [withRadius locationFilter circle radius].
  split; intros Hcase.
  - apply Hzero in Hcase. rewrite Hcase. reflexivity.
  - assert (Hpos : (a <> 0)%Z).
    { intros H0. apply Hzero in H0. Lqa.lra. }
    assert (Hq : Qeq_bool (inject_Z a) 0 = false).
    { destruct (Qeq_bool (inject_Z a) 0) eqn:E; [|reflexivity].
      apply Qeq_bool_iff in E. exfalso. apply Hpos.
      apply (inject_Z_injective a 0). exact E. }
    rewrite Hq. unfold a. now rewrite Qfloor_quarter_twice.
Qed.

Lemma always_capacity_refuses (i : nat) (b : RequestBody) :
  (i < 3)%nat ->
  exists body json,
    alwaysCapacity i b = Responded 429 body json
    /\ includes capacityPhrase body = true.
Proof. intros _. eexists _, _. split; reflexivity. Qed.

Lemma radii_of_three_refusals_witness :
  radiusInSchema 100
  /\ exists run third,
       execute (Some "key") alwaysCapacity "now" fastFoodContext = Some run
       /\ requestRadii run
          = [Some 100; Some (inject_Z (Qfloor (100 * (1 # 4)))); Some third]
       /\ ((100 < 4)%Q -> third = 250%Q)
       /\ ((4 <= 100)%Q -> third = inject_Z (Qfloor (100 * (1 # 16)))).
Proof.
  split; [exact hundred_in_schema|].
  exact (radii_of_three_refusals (Some "key") alwaysCapacity "now"
           fastFoodContext _ eq_refl always_capacity_refuses eq_refl
           hundred_in_schema).
Defined.

(** ** The summarizer tool *)

Lemma prefix_append (x b : string) : String.prefix x (x ++ b)%string = true.
Proof.
  induction x as [|c x IH]; simpl; [now destruct b|].
  destruct (ascii_dec c c); [exact IH | congruence].
Qed.

Lemma includes_here (x b : string) : includes x (x ++ b)%string = true.
Proof.
  destruct x as [|c x]; [now destruct b|].
  cbn [includes append]. change (String c (x ++ b)%string)
    with (String c x ++ b)%string.
  now rewrite prefix_append.
Qed.

Lemma includes_after (x a b : string) :
  includes x b = true -> includes x (a ++ b)%string = true.
Proof.
  intros H. induction a as [|c a IH]; [exact H|].
  cbn [append includes]. rewrite IH. apply orb_true_r.
Qed.

Lemma includes_before (x a b : string) :
  includes x a = true -> includes x (a ++ b)%string = true.
Proof.
  induction a as [|c a IH]; intros H.
  - destruct x; [now destruct b | discriminate].
  - cbn [append]. cbn [includes] in H |- *.
    apply orb_true_iff in H as [H | H].
    + assert (Hp : String.prefix x (String c a ++ b)%string = true).
      { clear IH. revert H. generalize (String c a). clear.
        induction x as [|d x IHx]; intros s H; [now destruct (s ++ b)%string|].
        destruct s as [|e s]; [discriminate|]. simpl in H |- *.
        destruct (ascii_dec d e); [now apply IHx | discriminate]. }
      change (String c (a ++ b)%string) with (String c a ++ b)%string.
      now rewrite Hp.
    + rewrite (IH H). apply orb_true_r.
Qed.

Lemma append_nil_r (a : string) : (a ++ "")%string = a.
Proof. induction a as [|c a IH]; simpl; [reflexivity | now rewrite IH]. Qed.

Lemma includes_middle (x a b : string) :
  includes x (a ++ x ++ b)%string = true.
Proof. apply includes_after, includes_here. Qed.

Lemma summarySection_includes title value rendered rest :
  value = Some rendered ->
  includes (title ++ nl ++ rendered)%string
    (summarySection title value ++ rest)%string = true.
Proof.
  intros ->. unfold summarySection.
  apply includes_before.
  replace (title ++ nl ++ rendered ++ nl ++ nl)%string
    with ((title ++ nl ++ rendered) ++ (nl ++ nl))%string.
  - apply includes_here.
  - now rewrite <- !append_assoc.
Qed.

(** The prompt sent to the agent contains the query and, under its title,
    the rendering of every key of the data that is present; with none of the
    four keys it is the instruction followed by the query alone. *)
Theorem prompt_carries_query_and_data (query : string) (data : SummaryData) :
  includes query (summaryPrompt query data) = true
  /\ (forall v, data_aggregation data = Some v ->
        includes ("Data Aggregation Results:" ++ nl ++ v)%string
          (summaryPrompt query data) = true)
  /\ (forall v, data_collection data = Some v ->
        includes ("Data Collection Results:" ++ nl ++ v)%string
          (summaryPrompt query data) = true)
  /\ (forall v, direct_search data = Some v ->
        includes ("Direct Search Results:" ++ nl ++ v)%string
          (summaryPrompt query data) = true)
  /\ (forall v, planning data = Some v ->
        includes ("Planning Results:" ++ nl ++ v)%string
          (summaryPrompt query data) = true)
  /\ (data_aggregation data = None -> data_collection data = None ->
      direct_search data = None -> planning data = None ->
      summaryPrompt query data
      = ("Please provide a concise summary of the following data in response to the user's query:"
         ++ nl ++ nl ++ "Query: " ++ query ++ nl ++ nl)%string).
Proof.
  unfold summaryPrompt, summaryText.
  repeat split.
  - do 3 apply includes_after. apply includes_before, includes_middle.
  - intros v Hv. do 4 apply includes_after.
    now apply summarySection_includes.
  - intros v Hv. do 5 apply includes_after.
    now apply summarySection_includes.
  - intros v Hv. do 6 apply includes_after.
    now apply summarySection_includes.
  - intros v Hv. do 7 apply includes_after.
    rewrite <- (append_nil_r (summarySection _ _)).
    now apply summarySection_includes.
  - intros -> -> -> ->. unfold summarySection.
    change (EmptyString ++ EmptyString ++ EmptyString ++ EmptyString)%string
      with EmptyString.
    now rewrite append_nil_r.
Qed.

(** The tool returns a summary exactly when the agent answers with a text
    that is not empty, and the summary is then that text, unchanged; it ends
    with the error of the empty response exactly when the agent answers
    with no text or with the empty one, and with the agent's own error
    exactly when the agent throws. *)
Theorem summary_is_the_agent_text (agent : string -> AgentOutcome)
    (query : string) (data : SummaryData) :
  (forall text,
     summarize agent query data = Summary text
     <-> agent (summaryPrompt query data) = AgentResponds (Some text)
         /\ text <> EmptyString)
  /\ (summarize agent query data = EmptyResponse
      <-> agent (summaryPrompt query data) = AgentResponds None
          \/ agent (summaryPrompt query data) = AgentResponds (Some EmptyString))
  /\ (forall message,
        summarize agent query data = AgentError message
        <-> agent (summaryPrompt query data) = AgentThrows message).
Proof.
  unfold summarize.
  destruct (agent (summaryPrompt query data)) as [m|[t|]].
  - repeat split; try discriminate; try congruence.
    + intros [H _]. discriminate H.
    + intros [H|H]; discriminate H.
  - cbn [truthyString]. destruct (String.eqb t "") eqn:Ht; cbn [negb].
    + apply String.eqb_eq in Ht. subst t.
      repeat split; try discriminate; try congruence.
      * intros [[= <-] Hne]. now contradiction Hne.
      * now right.
    + assert (Hne : t <> EmptyString).
      { intros ->. discriminate Ht. }
      repeat split; try discriminate; try congruence.
      * intros [[= ->] _]. reflexivity.
      * intros [H|[= H]]; [discriminate H | now contradiction Hne].
  - repeat split; try discriminate; try congruence.
    + intros [H _]. discriminate H.
    + now left.
Qed.

Lemma summary_is_the_agent_text_witness :
  summarize echoAgent "cafes nearby" searchOnly
  = Summary (summaryPrompt "cafes nearby" searchOnly).
Proof.
  apply (proj2 (proj1 (summary_is_the_agent_text echoAgent "cafes nearby"
                          searchOnly) _)).
  split; [reflexivity | discriminate].
Defined.

(** ** Choosing the response type *)

Lemma lowerAscii_idempotent (c : ascii) : lowerAscii (lowerAscii c) = lowerAscii c.
Proof. destruct c as [[] [] [] [] [] [] [] []]; reflexivity. Qed.

Lemma toLowerCase_idempotent (s : string) :
  toLowerCase (toLowerCase s) = toLowerCase s.
Proof.
  induction s as [|c s IH]; simpl; [reflexivity|].
  now rewrite lowerAscii_idempotent, IH.
Qed.

Lemma toLowerCase_append (a b : string) :
  toLowerCase (a ++ b) = (toLowerCase a ++ toLowerCase b)%string.
Proof. induction a as [|c a IH]; simpl; [reflexivity | now rewrite IH]. Qed.

(** The response type chosen for an ASCII message does not depend on the
    case of its letters. *)
Theorem response_type_ignores_case (analysis : option (option string))
    (message : string) :
  isAscii message = true ->
  determineAutoResponseType analysis (toLowerCase message)
  = determineAutoResponseType analysis message.
Proof.
  intros _. unfold determineAutoResponseType.
  now rewrite toLowerCase_idempotent.
Qed.

Lemma response_type_ignores_case_witness :
  determineAutoResponseType (Some None) (toLowerCase "Plot The Cafes")
  = determineAutoResponseType (Some None) "Plot The Cafes".
Proof.
  exact (response_type_ignores_case (Some None) "Plot The Cafes" eq_refl).
Defined.

(** An ASCII message that contains the word "map", in any letter case and
    anywhere, also inside a longer word, is answered with GEOJSON, whatever
    else it asks for and whatever the analysis says, a missing analysis
    included. *)
Theorem map_keyword_wins (analysis : option (option string))
    (before word after : string) :
  isAscii (before ++ word ++ after) = true ->
  toLowerCase word = "map" ->
  determineAutoResponseType analysis (before ++ word ++ after)
  = Decided GEOJSON.
Proof.
  intros _ Hword. unfold determineAutoResponseType.
  rewrite !toLowerCase_append, Hword.
  unfold mapKeywords. cbn [existsb].
  now rewrite includes_middle.
Qed.

Lemma map_keyword_wins_witness :
  determineAutoResponseType None "Analyze the roadMAP of cafes"
  = Decided GEOJSON.
Proof.
  exact (map_keyword_wins None "Analyze the road" "MAP" " of cafes"
           eq_refl eq_refl).
Defined.

(** ** The places array *)

Lemma mapPlace_null (entries : list PlaceInsight) :
  In NullEntry entries -> mapPlace entries = inl PlaceOfNull.
Proof.
  induction entries as [|e entries IH]; intros Hin; [contradiction|].
  destruct e as [|p]; [reflexivity|].
  destruct Hin as [Hin|Hin]; [discriminate|].
  cbn [mapPlace place]. now rewrite (IH Hin).
Qed.

Lemma mapPlace_entries (entries : list PlaceInsight) :
  ~ In NullEntry entries ->
  exists ps,
    mapPlace entries = inr ps
    /\ Forall2 (fun e p => e = Entry p) entries ps.
Proof.
  induction entries as [|e entries IH]; intros Hnot.
  - exists []. split; [reflexivity | constructor].
  - destruct e as [|p]; [exfalso; apply Hnot; now left|].
    destruct IH as (ps & Hmap & Hall).
    { intros Hin. apply Hnot. now right. }
    exists (p :: ps). cbn [mapPlace place]. rewrite Hmap.
    split; [reflexivity | now constructor].
Qed.

(** What becomes of the places array of the response that was answered.
    Without an array the result has no [places]. With an array that holds a
    [null], nothing is returned: the TypeError of reading [place] of [null]
    leaves [execute]. Otherwise the result has one element for each entry,
    in order, the identifier of the entry or [undefined], and as soon as one
    entry has no identifier the list is not one that the [outputSchema]
    admits. *)
Theorem places_follow_the_entries apiKey net now context run data :
  execute apiKey net now context = Some run ->
  answeredData net run = Some data ->
  (placeInsights data = None ->
     exists r, outcome run = Returned r /\ resultPlaces r = None)
  /\ (forall entries,
        placeInsights data = Some entries ->
        In NullEntry entries ->
        outcome run = Threw PlaceOfNull)
  /\ (forall entries,
        placeInsights data = Some entries ->
        ~ In NullEntry entries ->
        exists r places,
          outcome run = Returned r
          /\ resultPlaces r = Some places
          /\ Forall2 (fun e p => e = Entry p) entries places
          /\ List.length places = List.length entries
          /\ (In (Entry None) entries ->
              outputSchemaPlaces (resultPlaces r) = false)).
Proof.
  intros Hex Hdata.
  pose proof (execute_answered _ _ _ _ _ _ Hex Hdata) as Hend.
  unfold finish, placesOf in Hend.
  split; [|split].
  - intros Hnone. rewrite Hnone in Hend. eexists. split; [exact Hend|].
    reflexivity.
  - intros entries Hsome Hin.
    now rewrite Hsome, (mapPlace_null _ Hin) in Hend.
  - intros entries Hsome Hnot.
    destruct (mapPlace_entries _ Hnot) as (ps & Hmap & Hall).
    rewrite Hsome, Hmap in Hend.
    eexists. exists ps. split; [exact Hend|].
    cbn [buildResult resultPlaces outputSchemaPlaces].
    split; [reflexivity|]. split; [exact Hall|].
    split; [symmetry; apply (Forall2_length Hall)|].
    clear Hend Hmap Hsome Hnot.
    induction Hall as [|e p entries ps He Hall IH]; cbn [forallb In];
      [contradiction|].
    subst e. destruct p as [p|]; [|reflexivity].
    intros [Heq|Hin]; [discriminate | exact (IH Hin)].
Qed.

Lemma places_follow_the_entries_witness :
  execute (Some "key") (capacityThen 0 nullPlaces) "now" placesContext
  = Some nullPlacesRun
  /\ In NullEntry nullEntries
  /\ outcome nullPlacesRun = Threw PlaceOfNull.
Proof.
  split; [exact execute_nullPlacesRun|].
  assert (Hin : In NullEntry nullEntries) by (right; left; reflexivity).
  split; [exact Hin|].
  exact (proj1 (proj2
           (places_follow_the_entries (Some "key") (capacityThen 0 nullPlaces)
              "now" placesContext nullPlacesRun nullPlaces
              execute_nullPlacesRun eq_refl))
           nullEntries eq_refl Hin).
Defined.

(** ** The tier of a density *)

(** The tier is read off the density that was computed, by bands closed on
    the left: LOW under 1, MODERATE from 1 to under 5, HIGH from 5 to under
    15 and SATURATED from 15 on, so that a density of exactly 1, 5 or 15 is in
    the upper band; the bands cover every finite density. An infinite density
    is SATURATED when positive and LOW when negative, and [NaN], which fails
    every comparison, is SATURATED. A finite double is a real number and its
    comparisons with 1, 5 and 15 are exact, so this is the tier of the
    density as the code computed it, whatever the rounding before. *)
Theorem tier_of_a_density_value (d : R) :
  ((d < 1)%R -> fst (densityStage (RFin d)) = LOW)
  /\ ((1 <= d < 5)%R -> fst (densityStage (RFin d)) = MODERATE)
  /\ ((5 <= d < 15)%R -> fst (densityStage (RFin d)) = HIGH)
  /\ ((15 <= d)%R -> fst (densityStage (RFin d)) = SATURATED)
  /\ fst (densityStage (RFin 1)) = MODERATE
  /\ fst (densityStage (RFin 5)) = HIGH
  /\ fst (densityStage (RFin 15)) = SATURATED
  /\ fst (densityStage (RInf false)) = SATURATED
  /\ fst (densityStage (RInf true)) = LOW
  /\ fst (densityStage RNaN) = SATURATED.
Proof.
  destruct (densityStage_bands d) as (H1 & H2 & H3 & H4).
  repeat (split; [assumption|]).
  split; [apply densityStage_bands; lra|].
  split; [apply densityStage_bands; lra|].
  split; [apply densityStage_bands; lra|].
  repeat split; reflexivity.
Qed.
